(** * CaseCrawl front end: a shallow embedding and its properties

    The client of the case-retrieval system is a React application.  Its
    pages are functions from component state to a rendered view and a set
    of event handlers; each handler is modelled here as a function on the
    component state that also returns the effects it issues (HTTP
    requests, callbacks, console output).

    Layout: the JavaScript values the code relies on, the declared data
    types ([types/index.ts]), the API client, the pages and hooks, and
    then the properties. *)

From Stdlib Require Import QArith.
From stdpp Require Import base gmap strings list fin_maps pretty.

Set Warnings "-register-all".

(** ** JavaScript values *)

Module Js.

(** The values a JSON payload can carry, plus [undefined], which is what
    reading a property that an object does not have evaluates to. *)
Inductive value : Type :=
| Undefined
| Null
| Bool (b : bool)
| Num (q : Q)
| Str (s : string)
| Arr (items : list value)
| Obj (fields : list (string * value)).

Definition object : Type := list (string * value).

(** ECMAScript [ToBoolean] (there is no NaN in a JSON payload). *)
Definition ToBoolean (v : value) : bool :=
  match v with
  | Undefined | Null => false
  | Bool b => b
  | Num q => negb (Qeq_bool q 0%Q)
  | Str s => negb (String.eqb s "")
  | Arr _ | Obj _ => true
  end.

(** [a && b]: the left operand when it is falsy, otherwise the right. *)
Definition and (a b : value) : value :=
  if ToBoolean a then b else a.

(** [!a] *)
Definition not (a : value) : value := Bool (negb (ToBoolean a)).

(** [o.name] on an object: the property's value, [undefined] when the
    object has no such property. *)
Fixpoint get (o : object) (name : string) : value :=
  match o with
  | [] => Undefined
  | (k, v) :: rest => if String.eqb k name then v else get rest name
  end.

(** [v.name] on any value that is not [null] or [undefined]; the
    primitives and arrays have none of the property names read here. *)
Definition get_value (v : value) (name : string) : value :=
  match v with
  | Obj fields => get fields name
  | _ => Undefined
  end.

(** [a === b] between a value and a string literal. *)
Definition strict_eq_string (v : value) (lit : string) : bool :=
  match v with
  | Str s => String.eqb s lit
  | _ => false
  end.

(** An optional property is left out of the object when it is absent. *)
Definition optional (name : string) (v : option value) : object :=
  match v with
  | Some x => [(name, x)]
  | None => []
  end.

End Js.

(** ** Strings typed by the user

    [String.prototype.trim] is defined on UTF-16 code units, so text that is
    trimmed is kept as its list of code units. *)

Module JsString.

Definition code_unit : Type := N.
Definition t : Type := list code_unit.

(** ECMAScript [WhiteSpace]: TAB, VT, FF, SP, NBSP, ZWNBSP and the other
    code points of category Zs. *)
Definition isWhiteSpace (c : code_unit) : bool :=
  ((c =? 0x0009) || (c =? 0x000B) || (c =? 0x000C) || (c =? 0x0020)
   || (c =? 0x00A0) || (c =? 0xFEFF) || (c =? 0x1680)
   || ((0x2000 <=? c) && (c <=? 0x200A))
   || (c =? 0x202F) || (c =? 0x205F) || (c =? 0x3000))%N.

(** ECMAScript [LineTerminator]: LF, CR, LS, PS. *)
Definition isLineTerminator (c : code_unit) : bool :=
  ((c =? 0x000A) || (c =? 0x000D) || (c =? 0x2028) || (c =? 0x2029))%N.

Definition isTrimmed (c : code_unit) : bool :=
  isWhiteSpace c || isLineTerminator c.

(** [TrimString(S, start)] *)
Fixpoint trimStart (s : t) : t :=
  match s with
  | [] => []
  | c :: rest => if isTrimmed c then trimStart rest else s
  end.

(** [TrimString(S, end)] *)
Definition trimEnd (s : t) : t := reverse (trimStart (reverse s)).

(** [S.trim()] *)
Definition trim (s : t) : t := trimEnd (trimStart s).

(** Nothing but white space and line terminators. *)
Definition blank (s : t) : Prop := Forall (fun c => isTrimmed c = true) s.

(** A string is truthy exactly when it is not empty. *)
Definition truthy (s : t) : bool :=
  match s with
  | [] => false
  | _ :: _ => true
  end.

(** The code units of an ASCII literal. *)
Definition of_string (s : string) : t :=
  map Ascii.N_of_ascii (String.list_ascii_of_string s).

End JsString.

(** ** The declared data types ([types/index.ts]) *)

Inductive BatchStatus : Type :=
| batch_pending | batch_processing | batch_completed | batch_failed | batch_paused.

Inductive CaseStatus : Type :=
| pending
| searching
| ambiguous
| awaiting_selection
| civil_procedure_blocked
| citation_mismatch
| analysis_only
| downloading
| completed
| error.

Inductive CitationMatchType : Type :=
| exact | similar_volume | year_match_only | none.

(** The string each member of the union type is at run time. *)
Definition CitationMatchType_name (t : CitationMatchType) : string :=
  match t with
  | exact => "exact"
  | similar_volume => "similar_volume"
  | year_match_only => "year_match_only"
  | none => "none"
  end.

(** [BatchStatistics]; [progress_percentage] is a floating-point figure
    that no property below reads, and is kept as a rational. *)
Record BatchStatistics : Type := {
  stat_batch_id : string;
  stat_status : BatchStatus;
  total_cases : nat;
  stat_completed : nat;
  stat_pending : nat;
  stat_errors : nat;
  stat_ambiguous : nat;
  stat_civil_procedure_blocked : nat;
  stat_awaiting_selection : nat;
  progress_percentage : Q
}.

Record AvailableDocuments : Type := {
  pdf : bool;
  transcript : bool;
  analysis : bool
}.

Record SearchResultItem : Type := {
  id : string;
  westlaw_citation : string;
  where_reported : list string;
  principal_subject : option string;
  is_civil_procedure : bool;
  parties_display : string;
  decision_date : option string;
  year : Z;
  available_documents : AvailableDocuments;
  citation_match_type : CitationMatchType;
  similarity_score : Q;
  westlaw_url : option string;
  citation_match_badge : option string
}.

(** The declared part of the object a [SearchResultItem] is at run time:
    one property per declared field, optional ones only when present. *)
Definition AvailableDocuments_object (d : AvailableDocuments) : Js.object :=
  [("pdf", Js.Bool (pdf d));
   ("transcript", Js.Bool (transcript d));
   ("analysis", Js.Bool (analysis d))].

Definition SearchResultItem_object (r : SearchResultItem) : Js.object :=
  [("id", Js.Str (id r));
   ("westlaw_citation", Js.Str (westlaw_citation r));
   ("where_reported", Js.Arr (map Js.Str (where_reported r)))]
  ++ Js.optional "principal_subject" (Js.Str <$> principal_subject r)
  ++ [("is_civil_procedure", Js.Bool (is_civil_procedure r));
      ("parties_display", Js.Str (parties_display r))]
  ++ Js.optional "decision_date" (Js.Str <$> decision_date r)
  ++ [("year", Js.Num (inject_Z (year r)));
      ("available_documents",
       Js.Obj (AvailableDocuments_object (available_documents r)));
      ("citation_match_type",
       Js.Str (CitationMatchType_name (citation_match_type r)));
      ("similarity_score", Js.Num (similarity_score r))]
  ++ Js.optional "westlaw_url" (Js.Str <$> westlaw_url r)
  ++ Js.optional "citation_match_badge" (Js.Str <$> citation_match_badge r).

(** The object the client actually holds for a result.  The response of
    the search-results endpoint is used as parsed, without validation, so
    besides the declared fields it can carry further properties: [extra]
    is whatever else the JSON object has. *)
Definition SearchResultItem_payload (r : SearchResultItem) (extra : Js.object)
    : Js.object :=
  SearchResultItem_object r ++ extra.

(** ** The API client ([utils/api.ts]) *)

Module Api.

Inductive http_method : Type := GET | POST.

Record request : Type := {
  method : http_method;
  url : string;
  body : Js.object
}.

(** [selectCaseResult(caseId, resultId)] posts to
    [/cases/${caseId}/select]. *)
Definition selectCaseResult (caseId resultId : string) : request :=
  {| method := POST;
     url := "/cases/" +:+ caseId +:+ "/select";
     body := [("result_id", Js.Str resultId);
              ("override_civil_procedure", Js.Bool false)] |}.

End Api.

(** ** The disambiguation page ([pages/Disambiguation.tsx]) *)

Module Disambiguation.

Record BadgeConfig : Type := {
  label : string;
  color : string
}.

(** The entries of the [matchTypeConfig] literal, in source order. *)
Definition matchTypeConfig_entries : list (string * BadgeConfig) :=
  [("exact",
    {| label := "Exact Match";
       color := "bg-green-100 text-green-800 border-green-200" |});
   ("similar_volume",
    {| label := "Volume Tolerance";
       color := "bg-yellow-100 text-yellow-800 border-yellow-200" |});
   ("year_match_only",
    {| label := "Year Match Only";
       color := "bg-orange-100 text-orange-800 border-orange-200" |});
   ("none",
    {| label := "No Match";
       color := "bg-red-100 text-red-800 border-red-200" |})].

Definition matchTypeConfig : gmap string BadgeConfig :=
  list_to_map matchTypeConfig_entries.

(** [result.has_downloadable_document && !result.is_civil_procedure],
    on the object the card receives. *)
Definition canDownload_object (result : Js.object) : Js.value :=
  Js.and (Js.get result "has_downloadable_document")
         (Js.not (Js.get result "is_civil_procedure")).

(** [canDownload] for a result received with the declared fields only. *)
Definition canDownload (result : SearchResultItem) : Js.value :=
  canDownload_object (SearchResultItem_object result).

Record ResultCardProps : Type := {
  result : SearchResultItem;
  userCitation : option string;
  isSelected : bool;
  disabled : bool
}.

(** What a rendered card shows. *)
Record ResultCardView : Type := {
  badge : BadgeConfig;
  civil_procedure_badge : bool;
  cannot_auto_download : bool;
  selected_mark : bool;
  clickable : bool
}.

(** [ResultCard], for a result received with the declared fields only:
    rendering fails (a [TypeError] on [matchConfig.color]) when the match
    type has no entry in [matchTypeConfig]. *)
Definition ResultCard (props : ResultCardProps) : option ResultCardView :=
  matchConfig ← matchTypeConfig !! CitationMatchType_name (citation_match_type (result props));
  Some {| badge := matchConfig;
          civil_procedure_badge := is_civil_procedure (result props);
          cannot_auto_download := negb (Js.ToBoolean (canDownload (result props)));
          selected_mark := isSelected props;
          clickable := negb (disabled props) |}.

(** [canDownload] and the card for a result as received: the declared
    fields together with the further properties of its JSON object. *)
Definition canDownload_payload (result : SearchResultItem) (extra : Js.object)
    : Js.value :=
  canDownload_object (SearchResultItem_payload result extra).

Definition ResultCard_payload (props : ResultCardProps) (extra : Js.object)
    : option ResultCardView :=
  matchConfig ← matchTypeConfig !! CitationMatchType_name (citation_match_type (result props));
  Some {| badge := matchConfig;
          civil_procedure_badge := is_civil_procedure (result props);
          cannot_auto_download :=
            negb (Js.ToBoolean (canDownload_payload (result props) extra));
          selected_mark := isSelected props;
          clickable := negb (disabled props) |}.

(** The page state: [selectedResult] ([string | null]) and whether the
    select mutation is in flight; [caseId] and the loaded result set are
    what the route and the results query supply. *)
Record state : Type := {
  caseId : string;
  results : list SearchResultItem;
  selectedResult : option string;
  isPending : bool
}.

Definition initial (caseId : string) (results : list SearchResultItem) : state :=
  {| caseId := caseId; results := results;
     selectedResult := None; isPending := false |}.

(** Truthiness of [selectedResult]: [null] and the empty string are falsy. *)
Definition selected_truthy (s : option string) : bool :=
  match s with
  | None => false
  | Some i => negb (String.eqb i "")
  end.

(** [handleSelect]: the requests it issues and the state afterwards. *)
Definition handleSelect (st : state) : state * list Api.request :=
  match selectedResult st with
  | Some resultId =>
      if selected_truthy (Some resultId)
      then ({| caseId := caseId st; results := results st;
               selectedResult := selectedResult st; isPending := true |},
            [Api.selectCaseResult (caseId st) resultId])
      else (st, [])
  | None => (st, [])
  end.

(** [disabled={!selectedResult || selectMutation.isPending}] *)
Definition confirm_disabled (st : state) : bool :=
  negb (selected_truthy (selectedResult st)) || isPending st.

(** The cards of the page, one per result of the loaded set;
    [citation_raw] is the case's own citation. *)
Definition cards (citation_raw : option string) (st : state) : list ResultCardProps :=
  map (fun r => {| result := r; userCitation := citation_raw;
                   isSelected := bool_decide (selectedResult st = Some (id r));
                   disabled := isPending st |})
      (results st).

Inductive event : Type :=
| ClickCard (index : nat)
| ClickConfirm
| MutationSettled.

(** One user or network event.  A card's [onClick] is
    [!disabled && onSelect()]; a disabled button receives no click. *)
Definition step (st : state) (e : event) : state * list Api.request :=
  match e with
  | ClickCard index =>
      match results st !! index with
      | Some r =>
          if isPending st then (st, [])
          else ({| caseId := caseId st; results := results st;
                   selectedResult := Some (id r); isPending := isPending st |}, [])
      | None => (st, [])
      end
  | ClickConfirm =>
      if confirm_disabled st then (st, []) else handleSelect st
  | MutationSettled =>
      ({| caseId := caseId st; results := results st;
          selectedResult := selectedResult st; isPending := false |}, [])
  end.

Fixpoint run (st : state) (es : list event) : state * list Api.request :=
  match es with
  | [] => (st, [])
  | e :: rest =>
      let '(st1, out1) := step st e in
      let '(st2, out2) := run st1 rest in
      (st2, out1 ++ out2)
  end.

End Disambiguation.

(** ** Manual case entry ([components/CaseEntryForm.tsx],
       [pages/ManualEntry.tsx]) *)

(** Modelled from the spec: the declaration of [ManualCaseEntry] is missing
    from [types/index.ts]; a submitted case is [{party_name, citation?,
    notes?}], and the form code reads exactly these three fields, the last
    two through [?.]. *)
Record ManualCaseEntry : Type := {
  party_name : JsString.t;
  citation : option JsString.t;
  notes : option JsString.t
}.

Module CaseEntryForm.

(** What a handler of the form does: the list it hands to [onChange]
    (when it calls it) and the form's own [errors] state afterwards. *)
Record outcome : Type := {
  onChange : option (list ManualCaseEntry);
  errors_after : gmap nat string
}.

(** [{ party_name: '', citation: '', notes: '' }] *)
Definition blank : ManualCaseEntry :=
  {| party_name := []; citation := Some []; notes := Some [] |}.

Definition addCase (maxCases : Z) (cases : list ManualCaseEntry)
    (errors : gmap nat string) : outcome :=
  if (Z.of_nat (length cases) >=? maxCases)%Z
  then {| onChange := None; errors_after := errors |}
  else {| onChange := Some (cases ++ [blank]); errors_after := errors |}.

(** [Array.prototype.filter] with a callback that reads the index. *)
Fixpoint filter_from {A : Type} (keep : A -> nat -> bool) (i : nat)
    (l : list A) : list A :=
  match l with
  | [] => []
  | x :: rest =>
      if keep x i then x :: filter_from keep (S i) rest
      else filter_from keep (S i) rest
  end.

Definition Array_filter {A : Type} (keep : A -> nat -> bool) (l : list A) : list A :=
  filter_from keep 0 l.

(** The loop of [removeCase] over [Object.entries(errors)]. *)
Definition shift_errors (index : nat) (errors : gmap nat string) : gmap nat string :=
  map_fold
    (fun keyNum value newErrors =>
       if (keyNum <? index)%nat then <[keyNum := value]> newErrors
       else if (index <? keyNum)%nat then <[(keyNum - 1)%nat := value]> newErrors
       else newErrors)
    ∅ errors.

Definition removeCase (index : nat) (cases : list ManualCaseEntry)
    (errors : gmap nat string) : outcome :=
  let newCases := Array_filter (fun _ i => negb (i =? index)%nat) cases in
  {| onChange := Some newCases; errors_after := shift_errors index errors |}.

Inductive field : Type := f_party_name | f_citation | f_notes.

(** [{ ...c, [field]: value }] *)
Definition set_field (c : ManualCaseEntry) (f : field) (value : JsString.t)
    : ManualCaseEntry :=
  match f with
  | f_party_name => {| party_name := value; citation := citation c; notes := notes c |}
  | f_citation => {| party_name := party_name c; citation := Some value; notes := notes c |}
  | f_notes => {| party_name := party_name c; citation := citation c; notes := Some value |}
  end.

Definition updateCase (index : nat) (f : field) (value : JsString.t)
    (cases : list ManualCaseEntry) (errors : gmap nat string) : outcome :=
  let newCases :=
    imap (fun i c => if (i =? index)%nat then set_field c f value else c) cases in
  {| onChange := Some newCases;
     errors_after :=
       match errors !! index with
       | Some message =>
           if String.eqb message "" then errors else delete index errors
       | None => errors
       end |}.

(** [validateAll]: whether every case has a party name, and the new
    [errors]. *)
Definition validateAll (cases : list ManualCaseEntry) : bool * gmap nat string :=
  foldl
    (fun '(isValid, newErrors) '(index, caseEntry) =>
       if negb (JsString.truthy (JsString.trim (party_name caseEntry)))
       then (false, <[index := "Party name is required"]> newErrors)
       else (isValid, newErrors))
    (true, ∅) (imap pair cases).

End CaseEntryForm.

Module ManualEntry.

(** The body handed to [createManualBatch]. *)
Record ManualBatchRequest : Type := {
  cases : list ManualCaseEntry;
  auto_download_exact_matches : bool
}.

Record state : Type := {
  st_cases : list ManualCaseEntry;
  autoDownload : bool;
  validationErrors : list string;
  form_errors : gmap nat string
}.

(** [useState] initial values. *)
Definition initial : state :=
  {| st_cases := [CaseEntryForm.blank]; autoDownload := true;
     validationErrors := []; form_errors := ∅ |}.

(** [maxCases={100}] *)
Definition maxCases : Z := 100.

(** [!caseEntry.party_name.trim()] *)
Definition party_name_blank (caseEntry : ManualCaseEntry) : bool :=
  negb (JsString.truthy (JsString.trim (party_name caseEntry))).

(** The [errors] array [validateForm] builds, in push order. *)
Definition validateForm_errors (cases : list ManualCaseEntry) : list string :=
  let errors :=
    if (length cases =? 0)%nat then ["Please add at least one case"] else [] in
  foldl
    (fun errors '(index, caseEntry) =>
       if party_name_blank caseEntry
       then errors ++ ["Case #" +:+ pretty (index + 1)%nat +:+ ": Party name is required"]
       else errors)
    errors (imap pair cases).

(** [validateForm]: stores the errors and returns [errors.length === 0]. *)
Definition validateForm (st : state) : state * bool :=
  let errors := validateForm_errors (st_cases st) in
  ({| st_cases := st_cases st; autoDownload := autoDownload st;
      validationErrors := errors; form_errors := form_errors st |},
   (length errors =? 0)%nat).

(** [s?.trim() || undefined] *)
Definition trim_or_undefined (s : option JsString.t) : option JsString.t :=
  match s with
  | None => None
  | Some x =>
      if JsString.truthy (JsString.trim x) then Some (JsString.trim x) else None
  end.

(** [handleSubmit]: the state afterwards and the request body handed to
    the mutation, if any. *)
Definition handleSubmit (st : state) : state * option ManualBatchRequest :=
  let '(st', ok) := validateForm st in
  if negb ok then (st', None)
  else
    let validCases :=
      map (fun c => {| party_name := JsString.trim (party_name c);
                       citation := trim_or_undefined (citation c);
                       notes := trim_or_undefined (notes c) |})
          (filter (fun c => JsString.truthy (JsString.trim (party_name c)) = true)
                  (st_cases st)) in
    (st', Some {| cases := validCases;
                  auto_download_exact_matches := autoDownload st |}).

(** [handleCasesChange], the [onChange] the page hands to the form. *)
Definition handleCasesChange (st : state) (newCases : list ManualCaseEntry) : state :=
  {| st_cases := newCases; autoDownload := autoDownload st;
     validationErrors :=
       if (0 <? length (validationErrors st))%nat then [] else validationErrors st;
     form_errors := form_errors st |}.

(** A form handler run inside the page. *)
Definition apply_outcome (st : state) (o : CaseEntryForm.outcome) : state :=
  let st' :=
    match CaseEntryForm.onChange o with
    | Some newCases => handleCasesChange st newCases
    | None => st
    end in
  {| st_cases := st_cases st'; autoDownload := autoDownload st';
     validationErrors := validationErrors st';
     form_errors := CaseEntryForm.errors_after o |}.

Inductive event : Type :=
| AddCase
| RemoveCase (index : nat)
| UpdateCase (index : nat) (f : CaseEntryForm.field) (value : JsString.t)
| ToggleAutoDownload (checked : bool)
| Submit.

(** The remove button of a card is rendered only when
    [cases.length > 1], and only for the cards that exist. *)
Definition step (st : state) (e : event) : state :=
  match e with
  | AddCase =>
      apply_outcome st (CaseEntryForm.addCase maxCases (st_cases st) (form_errors st))
  | RemoveCase index =>
      if (1 <? length (st_cases st))%nat && (index <? length (st_cases st))%nat
      then apply_outcome st (CaseEntryForm.removeCase index (st_cases st) (form_errors st))
      else st
  | UpdateCase index f value =>
      if (index <? length (st_cases st))%nat
      then apply_outcome st
             (CaseEntryForm.updateCase index f value (st_cases st) (form_errors st))
      else st
  | ToggleAutoDownload checked =>
      {| st_cases := st_cases st; autoDownload := checked;
         validationErrors := validationErrors st; form_errors := form_errors st |}
  | Submit =>
      if (length (st_cases st) =? 0)%nat then st else fst (handleSubmit st)
  end.

Definition run (es : list event) : state := foldl step initial es.

End ManualEntry.

(** ** The event-stream hook ([hooks/useWebSocket.ts]) *)

Module UseWebSocket.

(** What the handlers do besides updating the hook's state. *)
Inductive effect : Type :=
| CallOnMessage (message : Js.value)
| CallOnConnect
| CallOnDisconnect
| Send (payload : Js.object)
| ConsoleLog (text : string)
| ConsoleError (text : string).

(** A callback handed to the hook; applied to its argument it says
    whether the call throws. *)
Definition callback (A : Type) : Type := A -> bool.

Record options : Type := {
  batchId : option string;
  onMessage : option (callback Js.value);
  onConnect : option (callback unit);
  onDisconnect : option (callback unit)
}.

(** [isConnected] and [lastMessage] ([null] before the first message). *)
Record state : Type := {
  isConnected : bool;
  lastMessage : Js.value
}.

Definition initial : state :=
  {| isConnected := false; lastMessage := Js.Null |}.

Definition batchId_truthy (b : option string) : bool :=
  match b with
  | None => false
  | Some s => negb (String.eqb s "")
  end.

Section Handlers.

(** [JSON.parse] of the frame's data: [None] when it throws a
    [SyntaxError]. *)
Variable JSON_parse : string -> option Js.value.
Variable opts : options.

(** [ws.onmessage]: everything after [JSON.parse] is inside the same
    [try], so a throwing [onMessage] also ends in the [catch]. *)
Definition onmessage (st : state) (data : string) : state * list effect :=
  match JSON_parse data with
  | Some message =>
      let st' := {| isConnected := isConnected st; lastMessage := message |} in
      match onMessage opts with
      | Some cb =>
          (st', CallOnMessage message ::
                (if cb message
                 then [ConsoleError "Failed to parse WebSocket message:"]
                 else []))
      | None => (st', [])
      end
  | None => (st, [ConsoleError "Failed to parse WebSocket message:"])
  end.

(** [if (batchId) ws.send(...)]: the subscription sent on open. *)
Definition subscribe : list effect :=
  match batchId opts with
  | Some b =>
      if batchId_truthy (Some b)
      then [Send [("type", Js.Str "subscribe"); ("batch_id", Js.Str b)]]
      else []
  | None => []
  end.

(** [ws.onopen]: nothing catches a throwing [onConnect], so the
    subscription after it is then not sent. *)
Definition onopen (st : state) : state * list effect :=
  ({| isConnected := true; lastMessage := lastMessage st |},
   [ConsoleLog "WebSocket connected"]
   ++ match onConnect opts with
      | Some cb => CallOnConnect :: (if cb tt then [] else subscribe)
      | None => subscribe
      end).

Definition onclose (st : state) : state * list effect :=
  ({| isConnected := false; lastMessage := lastMessage st |},
   [ConsoleLog "WebSocket disconnected"]
   ++ match onDisconnect opts with Some _ => [CallOnDisconnect] | None => [] end).

Definition onerror (st : state) : state * list effect :=
  ({| isConnected := false; lastMessage := lastMessage st |},
   [ConsoleError "WebSocket error:"]).

End Handlers.

(** The calls of [onMessage] among a handler's effects. *)
Definition onMessage_calls (out : list effect) : list Js.value :=
  omap (fun e => match e with CallOnMessage m => Some m | _ => None end) out.

End UseWebSocket.

(** ** The dashboard ([pages/Dashboard.tsx]) *)

Module Dashboard.

Inductive query : Type := batchQuery | statsQuery | casesQuery.

Record query_options : Type := {
  queryKey : list (option string);
  enabled : bool;
  refetchInterval : option Z  (* milliseconds *)
}.

Definition query_name (q : query) : string :=
  match q with
  | batchQuery => "batch"
  | statsQuery => "batch-stats"
  | casesQuery => "batch-cases"
  end.

(** The options each [useQuery] call is given. *)
Definition useQuery (q : query) (selectedBatchId : option string) : query_options :=
  {| queryKey := [Some (query_name q); selectedBatchId];
     enabled := UseWebSocket.batchId_truthy selectedBatchId;
     refetchInterval := Some 5000%Z |}.

Definition queries : list query := [batchQuery; statsQuery; casesQuery].

(** With [refetchInterval] set, an enabled query refetches every that many
    milliseconds: the times of its first [n] polls. *)
Definition poll_times (o : query_options) (n : nat) : list Z :=
  match refetchInterval o with
  | Some ms => if enabled o then map (fun k => (Z.of_nat (S k) * ms)%Z) (seq 0 n) else []
  | None => []
  end.

(** The effect on [lastMessage]: the queries refetched. *)
Definition on_lastMessage (lastMessage : Js.value) : list query :=
  if Js.ToBoolean lastMessage then
    let type := Js.get_value lastMessage "type" in
    if Js.strict_eq_string type "case_completed"
       || Js.strict_eq_string type "case_error"
       || Js.strict_eq_string type "civil_procedure_detected"
    then [batchQuery; statsQuery; casesQuery]
    else []
  else [].

(** The statistics cards, in display order. *)
Definition StatCards (stats : BatchStatistics) : list (string * nat) :=
  [("Total", total_cases stats);
   ("Completed", stat_completed stats);
   ("Pending", stat_pending stats);
   ("Errors", stat_errors stats);
   ("Ambiguous", stat_ambiguous stats);
   ("Civil Proc.", stat_civil_procedure_blocked stats);
   ("Awaiting", stat_awaiting_selection stats)].

(** [CaseRow] offers the "Select" link for these statuses only. *)
Definition select_link_shown (s : CaseStatus) : bool :=
  match s with
  | ambiguous | awaiting_selection => true
  | _ => false
  end.

End Dashboard.

(** ** The case statuses *)

Module Batch.

(** The members of [CaseStatus], in declaration order. *)
Definition all_statuses : list CaseStatus :=
  [pending; searching; ambiguous; awaiting_selection; civil_procedure_blocked;
   citation_mismatch; analysis_only; downloading; completed; error].

End Batch.

(** ** Invariants and sample data *)

(** The selected id, when there is one, is the id of a loaded result. *)
Definition selection_from_results (st : Disambiguation.state) : Prop :=
  match Disambiguation.selectedResult st with
  | None => True
  | Some i => exists r, r ∈ Disambiguation.results st /\ id r = i
  end.

Module Samples.

(** The result of the API reference's example response. *)
Definition smith_v_jones : SearchResultItem :=
  {| id := "r-1";
     westlaw_citation := "[2020] HKCFI 123";
     where_reported := ["[2020] 1 HKLRD 100"];
     principal_subject := Some "Contract Law";
     is_civil_procedure := false;
     parties_display := "Smith v Jones";
     decision_date := None;
     year := 2020%Z;
     available_documents := {| pdf := true; transcript := false; analysis := true |};
     citation_match_type := exact;
     similarity_score := 1%Q;
     westlaw_url := None;
     citation_match_badge := None |}.

(** The same exact match, flagged civil procedure. *)
Definition civil_case : SearchResultItem :=
  {| id := "r-2";
     westlaw_citation := "[2020] HKCFI 123";
     where_reported := ["[2020] 1 HKLRD 100"];
     principal_subject := Some "Civil Procedure";
     is_civil_procedure := true;
     parties_display := "Smith v Jones";
     decision_date := None;
     year := 2020%Z;
     available_documents := {| pdf := true; transcript := false; analysis := true |};
     citation_match_type := exact;
     similarity_score := 1%Q;
     westlaw_url := None;
     citation_match_badge := None |}.

Definition card (r : SearchResultItem) : Disambiguation.ResultCardProps :=
  {| Disambiguation.result := r; Disambiguation.userCitation := Some "[2020] HKCFI 123";
     Disambiguation.isSelected := false; Disambiguation.disabled := false |}.

Definition page : Disambiguation.state :=
  Disambiguation.initial "case-1" [smith_v_jones; civil_case].

(** A manual entry with padded party name, blank citation and no notes. *)
Definition padded_entry : ManualCaseEntry :=
  {| party_name := JsString.of_string "  Smith v Jones ";
     citation := Some (JsString.of_string "   ");
     notes := None |}.

Definition manual_page : ManualEntry.state :=
  {| ManualEntry.st_cases := [padded_entry];
     ManualEntry.autoDownload := true;
     ManualEntry.validationErrors := [];
     ManualEntry.form_errors := ∅ |}.

(** [JSON.parse] on the three JSON literals, a [SyntaxError] elsewhere:
    enough of the function to run the hook on sample frames. *)
Definition parse_literal (data : string) : option Js.value :=
  if String.eqb data "null" then Some Js.Null
  else if String.eqb data "true" then Some (Js.Bool true)
  else if String.eqb data "false" then Some (Js.Bool false)
  else None.

Definition hook_options : UseWebSocket.options :=
  {| UseWebSocket.batchId := Some "batch-1";
     UseWebSocket.onMessage := Some (fun _ => false);
     UseWebSocket.onConnect := None;
     UseWebSocket.onDisconnect := None |}.

End Samples.

(** ** The hook over a connection's events *)

Module HookRun.

(** What the browser delivers to the socket's handlers. *)
Inductive socket_event : Type :=
| Open
| Message (data : string)
| Close
| Error.

Definition handle (JSON_parse : string -> option Js.value)
    (opts : UseWebSocket.options) (st : UseWebSocket.state) (e : socket_event)
    : UseWebSocket.state * list UseWebSocket.effect :=
  match e with
  | Open => UseWebSocket.onopen opts st
  | Message data => UseWebSocket.onmessage JSON_parse opts st data
  | Close => UseWebSocket.onclose opts st
  | Error => UseWebSocket.onerror st
  end.

(** The hook's state after a sequence of events, from its initial state. *)
Definition run (JSON_parse : string -> option Js.value)
    (opts : UseWebSocket.options) (es : list socket_event) : UseWebSocket.state :=
  foldl (fun st e => (handle JSON_parse opts st e).1) UseWebSocket.initial es.

(** The message a frame carries, when it parses. *)
Definition parsed (JSON_parse : string -> option Js.value) (e : socket_event)
    : option Js.value :=
  match e with
  | Message data => JSON_parse data
  | _ => None
  end.

(** Whether an event opens ([Some true]) or ends ([Some false]) the
    connection. *)
Definition connection_change (e : socket_event) : option bool :=
  match e with
  | Open => Some true
  | Close | Error => Some false
  | Message _ => None
  end.

(** Everything the handlers do over a sequence of events, in order. *)
Fixpoint trace (JSON_parse : string -> option Js.value)
    (opts : UseWebSocket.options) (st : UseWebSocket.state)
    (es : list socket_event) : list UseWebSocket.effect :=
  match es with
  | [] => []
  | e :: rest =>
      (handle JSON_parse opts st e).2
      ++ trace JSON_parse opts (handle JSON_parse opts st e).1 rest
  end.

End HookRun.

(** ** The rows of the dashboard's case table ([pages/Dashboard.tsx]) *)

Module Rows.

Record NormalizedParty : Type := {
  full : string;
  abbreviated : string;
  variations : list string
}.

Inductive ConfidenceLevel : Type := high | medium | low.

(** [CaseJob] of [types/index.ts]. *)
Record CaseJob : Type := {
  id : string;
  batch_id : string;
  party_names_raw : string;
  party_names_normalized : option NormalizedParty;
  citation_raw : option string;
  citation_normalized : option string;
  year_extracted : option Z;
  status : CaseStatus;
  confidence_level : option ConfidenceLevel;
  civil_procedure_flag : bool;
  volume_tolerance_applied : bool;
  file_path : option string;
  file_name : option string;
  westlaw_url : option string;
  created_at : string;
  updated_at : string
}.

(** The string each member of [CaseStatus] is at run time. *)
Definition CaseStatus_name (s : CaseStatus) : string :=
  match s with
  | pending => "pending"
  | searching => "searching"
  | ambiguous => "ambiguous"
  | awaiting_selection => "awaiting_selection"
  | civil_procedure_blocked => "civil_procedure_blocked"
  | citation_mismatch => "citation_mismatch"
  | analysis_only => "analysis_only"
  | downloading => "downloading"
  | completed => "completed"
  | error => "error"
  end.

Record StatusBadge : Type := {
  status_label : string;
  status_color : string;
  status_icon : string
}.

(** The entries of the [statusConfig] literal, in source order; an icon
    is kept as the name of its component. *)
Definition statusConfig_entries : list (string * StatusBadge) :=
  [("pending", {| status_label := "Pending";
                  status_color := "bg-gray-100 text-gray-700";
                  status_icon := "Clock" |});
   ("searching", {| status_label := "Searching";
                    status_color := "bg-blue-100 text-blue-700";
                    status_icon := "Loader2" |});
   ("ambiguous", {| status_label := "Ambiguous";
                    status_color := "bg-yellow-100 text-yellow-700";
                    status_icon := "HelpCircle" |});
   ("awaiting_selection", {| status_label := "Awaiting Selection";
                             status_color := "bg-orange-100 text-orange-700";
                             status_icon := "HelpCircle" |});
   ("civil_procedure_blocked", {| status_label := "Civil Procedure";
                                  status_color := "bg-red-100 text-red-700";
                                  status_icon := "AlertTriangle" |});
   ("citation_mismatch", {| status_label := "Citation Mismatch";
                            status_color := "bg-red-100 text-red-700";
                            status_icon := "XCircle" |});
   ("analysis_only", {| status_label := "Analysis Only";
                        status_color := "bg-purple-100 text-purple-700";
                        status_icon := "FileText" |});
   ("downloading", {| status_label := "Downloading";
                      status_color := "bg-blue-100 text-blue-700";
                      status_icon := "Loader2" |});
   ("completed", {| status_label := "Completed";
                    status_color := "bg-green-100 text-green-700";
                    status_icon := "CheckCircle2" |});
   ("error", {| status_label := "Error";
                status_color := "bg-red-100 text-red-700";
                status_icon := "XCircle" |})].

Definition statusConfig : gmap string StatusBadge :=
  list_to_map statusConfig_entries.

(** Truthiness of an optional string property. *)
Definition string_truthy (s : option string) : bool :=
  match s with
  | None => false
  | Some x => negb (String.eqb x "")
  end.

(** An optional string inside a template literal. *)
Definition interpolate (s : option string) : string :=
  match s with
  | None => "undefined"
  | Some x => x
  end.

(** What a rendered row shows. *)
Record CaseRowView : Type := {
  party_text : string;
  abbreviated_text : option string;
  citation_text : string;
  volume_differs : bool;
  status_badge : StatusBadge;
  select_link : option string;
  westlaw_link : option string;
  download_link : option string
}.

(** [CaseRow]: rendering fails (a [TypeError] on [status.color]) when the
    status has no entry in [statusConfig]. *)
Definition CaseRow (caseItem : CaseJob) : option CaseRowView :=
  badge ← statusConfig !! CaseStatus_name (status caseItem);
  Some {| party_text := party_names_raw caseItem;
          abbreviated_text := abbreviated <$> party_names_normalized caseItem;
          citation_text :=
            if string_truthy (citation_raw caseItem)
            then default "" (citation_raw caseItem) else "-";
          volume_differs := volume_tolerance_applied caseItem;
          status_badge := badge;
          select_link :=
            if Dashboard.select_link_shown (status caseItem)
            then Some ("/case/" +:+ id caseItem +:+ "/disambiguate")
            else None;
          westlaw_link :=
            if string_truthy (westlaw_url caseItem)
            then westlaw_url caseItem else None;
          download_link :=
            if string_truthy (file_path caseItem)
            then Some ("/files/" +:+ batch_id caseItem +:+ "/"
                       +:+ interpolate (file_name caseItem))
            else None |}.

End Rows.

(** ** The upload page ([pages/BatchUpload.tsx], [createBatch]) *)

Module BatchUpload.

Record File : Type := {
  name : string;
  size : nat
}.

Inductive form_value : Type :=
| FileValue (f : File)
| TextValue (s : string).

(** The multipart request of [createBatch]: the entries appended to its
    [FormData], in order. *)
Record upload_request : Type := {
  upload_url : string;
  form_data : list (string * form_value)
}.

(** [String(b)] *)
Definition String_of_bool (b : bool) : string :=
  if b then "true" else "false".

(** [createBatch(file, autoDownload)] *)
Definition createBatch (file : File) (autoDownload : bool) : upload_request :=
  {| upload_url := "/batches";
     form_data := [("file", FileValue file);
                   ("auto_download_exact_matches",
                    TextValue (String_of_bool autoDownload))] |}.

Record state : Type := {
  autoDownload : bool;
  uploadedFile : option File;
  isPending : bool
}.

Definition initial : state :=
  {| autoDownload := true; uploadedFile := None; isPending := false |}.

(** [onDrop]: keeps the first accepted file. *)
Definition onDrop (st : state) (acceptedFiles : list File) : state :=
  match acceptedFiles with
  | f :: _ => {| autoDownload := autoDownload st; uploadedFile := Some f;
                 isPending := isPending st |}
  | [] => st
  end.

(** [handleUpload] *)
Definition handleUpload (st : state) : state * list upload_request :=
  match uploadedFile st with
  | Some f =>
      ({| autoDownload := autoDownload st; uploadedFile := uploadedFile st;
          isPending := true |},
       [createBatch f (autoDownload st)])
  | None => (st, [])
  end.

Inductive event : Type :=
| Drop (acceptedFiles : list File)
| ToggleAutoDownload (checked : bool)
| ClickUpload
| MutationSettled.

(** The upload button is rendered only with a file and is disabled while
    the mutation is pending. *)
Definition step (st : state) (e : event) : state * list upload_request :=
  match e with
  | Drop acceptedFiles => (onDrop st acceptedFiles, [])
  | ToggleAutoDownload checked =>
      ({| autoDownload := checked; uploadedFile := uploadedFile st;
          isPending := isPending st |}, [])
  | ClickUpload =>
      match uploadedFile st with
      | Some _ => if isPending st then (st, []) else handleUpload st
      | None => (st, [])
      end
  | MutationSettled =>
      ({| autoDownload := autoDownload st; uploadedFile := uploadedFile st;
          isPending := false |}, [])
  end.

Fixpoint run (st : state) (es : list event) : state * list upload_request :=
  match es with
  | [] => (st, [])
  | e :: rest =>
      let '(st1, out1) := step st e in
      let '(st2, out2) := run st1 rest in
      (st2, out1 ++ out2)
  end.

(** The file a drop event selects. *)
Definition dropped (e : event) : option File :=
  match e with
  | Drop (f :: _) => Some f
  | _ => None
  end.

(** The checkbox value an event sets. *)
Definition toggled (e : event) : option bool :=
  match e with
  | ToggleAutoDownload checked => Some checked
  | _ => None
  end.

End BatchUpload.

(** ** What trimming leaves *)

(** [y] is [x] without a blank prefix and a blank suffix, and neither
    starts nor ends with a code unit that [trim] removes. *)
Definition trimmed_of (x y : JsString.t) : Prop :=
  exists p q,
    x = p ++ y ++ q /\ JsString.blank p /\ JsString.blank q
    /\ (forall c r, y = c :: r -> JsString.isTrimmed c = false)
    /\ (forall r c, y = r ++ [c] -> JsString.isTrimmed c = false).

(** ** More sample data *)

Module MoreSamples.

Definition blank_entry : ManualCaseEntry := CaseEntryForm.blank.

Definition smith : ManualCaseEntry :=
  {| party_name := JsString.of_string "Smith v Jones";
     citation := Some (JsString.of_string "[2020] HKCFI 123");
     notes := None |}.

Definition downloaded_job : Rows.CaseJob :=
  {| Rows.id := "case-1"; Rows.batch_id := "batch-1";
     Rows.party_names_raw := "Smith v Jones";
     Rows.party_names_normalized := None;
     Rows.citation_raw := None; Rows.citation_normalized := None;
     Rows.year_extracted := None; Rows.status := completed;
     Rows.confidence_level := None; Rows.civil_procedure_flag := false;
     Rows.volume_tolerance_applied := false;
     Rows.file_path := Some "/data/downloads/batch-1/case.pdf";
     Rows.file_name := None; Rows.westlaw_url := None;
     Rows.created_at := "2024-01-01T00:00:00Z";
     Rows.updated_at := "2024-01-01T00:00:00Z" |}.

(** An entry padded in every field, with blank notes. *)
Definition padded_full : ManualCaseEntry :=
  {| party_name := JsString.of_string "  Smith v Jones ";
     citation := Some (JsString.of_string " [2020] HKCFI 123  ");
     notes := Some (JsString.of_string "  ") |}.

Definition full_page : ManualEntry.state :=
  {| ManualEntry.st_cases := [padded_full];
     ManualEntry.autoDownload := true;
     ManualEntry.validationErrors := [];
     ManualEntry.form_errors := ∅ |}.

(** Properties a result's JSON object can carry besides the declared
    ones. *)
Definition downloadable : Js.object :=
  [("has_downloadable_document", Js.Bool true);
   ("auto_download_exact_matches", Js.Bool true)].

Definition failed_page : ManualEntry.state :=
  {| ManualEntry.st_cases := [CaseEntryForm.blank];
     ManualEntry.autoDownload := true;
     ManualEntry.validationErrors := ["Case #1: Party name is required"];
     ManualEntry.form_errors := ∅ |}.

(** The text of the frame [{"type":"case_completed"}]. *)
Definition completed_frame : string :=
  let q := String (Ascii.ascii_of_nat 34) EmptyString in
  "{" +:+ q +:+ "type" +:+ q +:+ ":" +:+ q +:+ "case_completed" +:+ q +:+ "}".

(** [JSON.parse] on that frame and on the JSON literals. *)
Definition parse_sample (data : string) : option Js.value :=
  if String.eqb data completed_frame
  then Some (Js.Obj [("type", Js.Str "case_completed")])
  else Samples.parse_literal data.

Definition sheet : BatchUpload.File :=
  {| BatchUpload.name := "cases.csv"; BatchUpload.size := 2048 |}.

End MoreSamples.

(** * Properties *)

(** ** Reading properties of a result object *)

Lemma get_has_downloadable_document (r : SearchResultItem) :
  Js.get (SearchResultItem_object r) "has_downloadable_document" = Js.Undefined.
Proof.
  unfold SearchResultItem_object.
  destruct (principal_subject r), (decision_date r), (westlaw_url r),
    (citation_match_badge r); reflexivity.
Qed.

(** Whatever else the object carries, a truthy civil-procedure flag makes
    the conjunction falsy. *)
Lemma canDownload_object_civil (o : Js.object) :
  Js.ToBoolean (Js.get o "is_civil_procedure") = true ->
  Js.ToBoolean (Disambiguation.canDownload_object o) = false.
Proof.
  intros Hcivil. unfold Disambiguation.canDownload_object, Js.and, Js.not.
  destruct (Js.ToBoolean (Js.get o "has_downloadable_document")) eqn:Hdoc.
  - rewrite Hcivil. reflexivity.
  - exact Hdoc.
Qed.

Lemma matchTypeConfig_lookup (t : CitationMatchType) :
  is_Some (Disambiguation.matchTypeConfig !! CitationMatchType_name t).
Proof. destruct t; vm_compute; eauto. Qed.

Lemma payload_get_is_civil_procedure (r : SearchResultItem) (extra : Js.object) :
  Js.get (SearchResultItem_payload r extra) "is_civil_procedure"
  = Js.Bool (is_civil_procedure r).
Proof.
  unfold SearchResultItem_payload, SearchResultItem_object.
  destruct (principal_subject r); reflexivity.
Qed.

Lemma payload_get_has_downloadable_document (r : SearchResultItem)
    (extra : Js.object) :
  Js.get (SearchResultItem_payload r extra) "has_downloadable_document"
  = Js.get extra "has_downloadable_document".
Proof.
  unfold SearchResultItem_payload, SearchResultItem_object.
  destruct (principal_subject r), (decision_date r), (westlaw_url r),
    (citation_match_badge r); reflexivity.
Qed.

(** What [canDownload] is on a received result, by truthiness. *)
Lemma canDownload_payload_truthy (r : SearchResultItem) (extra : Js.object) :
  Js.ToBoolean (Disambiguation.canDownload_payload r extra)
  = Js.ToBoolean (Js.get extra "has_downloadable_document")
    && negb (is_civil_procedure r).
Proof.
  unfold Disambiguation.canDownload_payload, Disambiguation.canDownload_object,
    Js.and, Js.not.
  rewrite payload_get_has_downloadable_document, payload_get_is_civil_procedure.
  destruct (Js.ToBoolean (Js.get extra "has_downloadable_document")) eqn:Hdoc.
  - reflexivity.
  - exact Hdoc.
Qed.

Lemma ResultCard_payload_view (props : Disambiguation.ResultCardProps)
    (extra : Js.object) :
  exists view,
    Disambiguation.ResultCard_payload props extra = Some view
    /\ Disambiguation.cannot_auto_download view
       = negb (Js.ToBoolean (Js.get extra "has_downloadable_document"))
         || is_civil_procedure (Disambiguation.result props)
    /\ Disambiguation.civil_procedure_badge view
       = is_civil_procedure (Disambiguation.result props).
Proof.
  unfold Disambiguation.ResultCard_payload.
  destruct (matchTypeConfig_lookup
              (citation_match_type (Disambiguation.result props))) as [cfg Hcfg].
  rewrite Hcfg. cbn. eexists. split; [reflexivity|]. cbn.
  rewrite canDownload_payload_truthy.
  destruct (Js.ToBoolean _), (is_civil_procedure _); auto.
Qed.

(** Without further properties the received card is the declared one. *)
Lemma ResultCard_payload_nil (props : Disambiguation.ResultCardProps) :
  Disambiguation.ResultCard_payload props [] = Disambiguation.ResultCard props.
Proof.
  unfold Disambiguation.ResultCard_payload, Disambiguation.ResultCard,
    Disambiguation.canDownload_payload, Disambiguation.canDownload,
    SearchResultItem_payload.
  rewrite app_nil_r. reflexivity.
Qed.




(** ** The disambiguation page as a state machine *)

Lemma initial_selection_from_results caseId results :
  selection_from_results (Disambiguation.initial caseId results).
Proof. exact I. Qed.

Lemma handleSelect_spec (st : Disambiguation.state) :
  (Disambiguation.caseId (Disambiguation.handleSelect st).1 = Disambiguation.caseId st
   /\ Disambiguation.results (Disambiguation.handleSelect st).1 = Disambiguation.results st
   /\ Disambiguation.selectedResult (Disambiguation.handleSelect st).1
      = Disambiguation.selectedResult st)
  /\ forall req, req ∈ (Disambiguation.handleSelect st).2 ->
       exists i, Disambiguation.selectedResult st = Some i
                 /\ req = Api.selectCaseResult (Disambiguation.caseId st) i.
Proof.
  unfold Disambiguation.handleSelect.
  destruct (Disambiguation.selectedResult st) as [i|] eqn:Hsel; cbn.
  - destruct (negb (String.eqb i "")); cbn.
    + split; [auto|]. intros req Hreq. apply list_elem_of_singleton in Hreq.
      exists i. auto.
    + split; [auto|]. intros req Hreq. inversion Hreq.
  - split; [auto|]. intros req Hreq. inversion Hreq.
Qed.

Lemma step_frame (st : Disambiguation.state) (e : Disambiguation.event) :
  Disambiguation.caseId (Disambiguation.step st e).1 = Disambiguation.caseId st
  /\ Disambiguation.results (Disambiguation.step st e).1 = Disambiguation.results st.
Proof.
  destruct e as [index| |]; cbn.
  - destruct (Disambiguation.results st !! index);
      [destruct (Disambiguation.isPending st)|]; cbn; auto.
  - destruct (Disambiguation.confirm_disabled st); cbn; [auto|].
    destruct (handleSelect_spec st) as [(Hc & Hr & _) _]. auto.
  - auto.
Qed.

Lemma step_selection (st : Disambiguation.state) (e : Disambiguation.event) :
  selection_from_results st -> selection_from_results (Disambiguation.step st e).1.
Proof.
  unfold selection_from_results. intros Hinv.
  destruct e as [index| |]; cbn.
  - destruct (Disambiguation.results st !! index) as [r|] eqn:Hr; [|exact Hinv].
    destruct (Disambiguation.isPending st); [exact Hinv|]. cbn.
    exists r. split; [|reflexivity]. eapply list_elem_of_lookup_2, Hr.
  - destruct (Disambiguation.confirm_disabled st); [exact Hinv|].
    destruct (handleSelect_spec st) as [(_ & Hr & Hs) _].
    rewrite Hs, Hr. exact Hinv.
  - exact Hinv.
Qed.

Lemma step_requests (st : Disambiguation.state) (e : Disambiguation.event) req :
  selection_from_results st ->
  req ∈ (Disambiguation.step st e).2 ->
  exists r, r ∈ Disambiguation.results st
            /\ req = Api.selectCaseResult (Disambiguation.caseId st) (id r).
Proof.
  unfold selection_from_results. intros Hinv Hreq.
  destruct e as [index| |]; cbn in Hreq.
  - destruct (Disambiguation.results st !! index);
      [destruct (Disambiguation.isPending st)|]; inversion Hreq.
  - destruct (Disambiguation.confirm_disabled st); [inversion Hreq|].
    destruct (handleSelect_spec st) as [_ Hout].
    destruct (Hout req Hreq) as (i & Hsel & ->).
    rewrite Hsel in Hinv. destruct Hinv as (r & Hr & <-). eauto.
  - inversion Hreq.
Qed.

Lemma run_cons (st : Disambiguation.state) e es :
  Disambiguation.run st (e :: es)
  = ((Disambiguation.run (Disambiguation.step st e).1 es).1,
     (Disambiguation.step st e).2 ++ (Disambiguation.run (Disambiguation.step st e).1 es).2).
Proof.
  cbn. destruct (Disambiguation.step st e) as [st1 out1]. cbn.
  destruct (Disambiguation.run st1 es) as [st2 out2]. reflexivity.
Qed.

Lemma run_invariant (es : list Disambiguation.event) :
  forall st, selection_from_results st ->
    selection_from_results (Disambiguation.run st es).1
    /\ Disambiguation.caseId (Disambiguation.run st es).1 = Disambiguation.caseId st
    /\ Disambiguation.results (Disambiguation.run st es).1 = Disambiguation.results st
    /\ forall req, req ∈ (Disambiguation.run st es).2 ->
         exists r, r ∈ Disambiguation.results st
                   /\ req = Api.selectCaseResult (Disambiguation.caseId st) (id r).
Proof.
  induction es as [|e es IH]; intros st Hinv.
  - cbn. repeat split; auto. intros req Hreq. inversion Hreq.
  - rewrite run_cons. cbn [fst snd].
    destruct (step_frame st e) as [Hc Hr].
    destruct (IH _ (step_selection st e Hinv)) as (Hinv' & Hc' & Hr' & Hout).
    repeat split.
    + exact Hinv'.
    + congruence.
    + congruence.
    + intros req Hreq. apply elem_of_app in Hreq. destruct Hreq as [Hreq|Hreq].
      * eapply step_requests; eauto.
      * destruct (Hout req Hreq) as (r & Hin & ->).
        rewrite Hr, Hc in *. eauto.
Qed.

(** ** The select action *)

(** C1 (as amended).  The select request carries an
    [override_civil_procedure] value that is fixed to [false] and that no
    caller chooses: [selectCaseResult] sends it as [false] for every case
    and candidate, and every request the disambiguation page sends, for
    every case, result set and sequence of user events, is a POST to the
    case's select endpoint whose body names a result of the loaded set and
    carries [override_civil_procedure = false].  The dashboard offers its
    select link exactly for [ambiguous] and [awaiting_selection] cases. *)
Theorem select_request_never_overrides
    (caseId : string) (results : list SearchResultItem)
    (events : list Disambiguation.event) (req : Api.request) :
  req ∈ (Disambiguation.run (Disambiguation.initial caseId results) events).2 ->
  Api.method req = Api.POST
  /\ Api.url req = "/cases/" +:+ caseId +:+ "/select"
  /\ (exists r, r ∈ results /\ Js.get (Api.body req) "result_id" = Js.Str (id r))
  /\ Js.get (Api.body req) "override_civil_procedure" = Js.Bool false
  /\ (forall c r,
        Js.get (Api.body (Api.selectCaseResult c r)) "override_civil_procedure"
        = Js.Bool false
        /\ Js.get (Api.body (Api.selectCaseResult c r)) "result_id" = Js.Str r
        /\ (Api.body (Api.selectCaseResult c r)).*1
           = ["result_id"; "override_civil_procedure"])
  /\ (forall s : CaseStatus,
        Dashboard.select_link_shown s = true
        <-> s = ambiguous \/ s = awaiting_selection).
Proof.
  intros Hreq.
  destruct (run_invariant events _ (initial_selection_from_results caseId results))
    as (_ & _ & _ & Hout).
  destruct (Hout req Hreq) as (r & Hr & ->). cbn.
  repeat split; eauto.
  - destruct s; cbn; intros H; try discriminate H; auto.
  - intros [-> | ->]; reflexivity.
Qed.

Lemma select_request_never_overrides_witness :
  Js.get (Api.body (Api.selectCaseResult "case-1" "r-2")) "override_civil_procedure"
  = Js.Bool false.
Proof.
  apply (select_request_never_overrides "case-1"
           [Samples.smith_v_jones; Samples.civil_case]
           [Disambiguation.ClickCard 1; Disambiguation.ClickConfirm]
           (Api.selectCaseResult "case-1" "r-2")).
  vm_compute. constructor.
Defined.

(** C1 (as stated) fails: no case and candidate make the client send
    [override_civil_procedure = true]. *)
Lemma select_override_counterexample :
  ~ exists caseId resultId,
      Js.get (Api.body (Api.selectCaseResult caseId resultId))
        "override_civil_procedure" = Js.Bool true.
Proof. intros (caseId & resultId & H). cbn in H. discriminate H. Qed.

(** ** Auto-download on the result card *)

(** C2.  A result flagged civil procedure is never auto-downloadable on
    its card.  On every object whose [is_civil_procedure] is [true],
    [canDownload] is falsy; and for every result received with the flag
    set, whatever its match type and whatever further properties its JSON
    object carries ([has_downloadable_document] or a batch policy
    included), [canDownload] is falsy, it is exactly [false] when
    [has_downloadable_document] is truthy, the card renders, and it shows
    the civil-procedure badge and "Cannot auto-download".  The card has no
    other input: it reads no batch policy. *)
Theorem civil_procedure_never_auto_downloadable :
  (forall o : Js.object,
     Js.get o "is_civil_procedure" = Js.Bool true ->
     Js.ToBoolean (Disambiguation.canDownload_object o) = false)
  /\ (forall (props : Disambiguation.ResultCardProps) (extra : Js.object),
        is_civil_procedure (Disambiguation.result props) = true ->
        Js.get (SearchResultItem_payload (Disambiguation.result props) extra)
          "is_civil_procedure" = Js.Bool true
        /\ Js.ToBoolean
             (Disambiguation.canDownload_payload (Disambiguation.result props) extra)
           = false
        /\ (Js.ToBoolean (Js.get extra "has_downloadable_document") = true ->
            Disambiguation.canDownload_payload (Disambiguation.result props) extra
            = Js.Bool false)
        /\ exists view,
             Disambiguation.ResultCard_payload props extra = Some view
             /\ Disambiguation.cannot_auto_download view = true
             /\ Disambiguation.civil_procedure_badge view = true).
Proof.
  split.
  - intros o Hcivil. apply canDownload_object_civil. rewrite Hcivil. reflexivity.
  - intros props extra Hcivil.
    split; [rewrite payload_get_is_civil_procedure, Hcivil; reflexivity|].
    split; [rewrite canDownload_payload_truthy, Hcivil; apply Bool.andb_false_r|].
    split.
    + intros Hdoc. unfold Disambiguation.canDownload_payload,
        Disambiguation.canDownload_object, Js.and, Js.not.
      rewrite payload_get_has_downloadable_document, Hdoc,
        payload_get_is_civil_procedure, Hcivil. reflexivity.
    + destruct (ResultCard_payload_view props extra) as (view & Hview & Hcannot & Hbadge).
      exists view. rewrite Hcannot, Hbadge, Hcivil.
      split; [exact Hview|]. split; [apply Bool.orb_true_r|reflexivity].
Qed.

Lemma civil_procedure_never_auto_downloadable_witness :
  Disambiguation.canDownload_payload Samples.civil_case MoreSamples.downloadable
  = Js.Bool false
  /\ exists view,
       Disambiguation.ResultCard_payload (Samples.card Samples.civil_case)
         MoreSamples.downloadable = Some view
       /\ Disambiguation.cannot_auto_download view = true
       /\ Disambiguation.civil_procedure_badge view = true.
Proof.
  destruct civil_procedure_never_auto_downloadable as [_ Hcard].
  destruct (Hcard (Samples.card Samples.civil_case) MoreSamples.downloadable)
    as (_ & _ & Hfalse & Hview); [reflexivity|].
  split; [apply Hfalse; reflexivity|exact Hview].
Defined.

(** C3 (as amended).  [has_downloadable_document] is not a declared
    property of a [SearchResultItem].  For every result whose JSON object
    does not carry it, an exact match that is not civil procedure and has
    a PDF included, [canDownload] is [undefined], which is falsy, and the
    card shows "Cannot auto-download".  In general the card shows the
    indicator exactly when the object's [has_downloadable_document] is
    falsy or the result is civil procedure. *)
Theorem canDownload_reads_undeclared_property
    (props : Disambiguation.ResultCardProps) (extra : Js.object) :
  Js.get (SearchResultItem_object (Disambiguation.result props))
    "has_downloadable_document" = Js.Undefined
  /\ Js.get (SearchResultItem_payload (Disambiguation.result props) extra)
       "has_downloadable_document"
     = Js.get extra "has_downloadable_document"
  /\ (exists view,
        Disambiguation.ResultCard_payload props extra = Some view
        /\ Disambiguation.cannot_auto_download view
           = negb (Js.ToBoolean (Js.get extra "has_downloadable_document"))
             || is_civil_procedure (Disambiguation.result props))
  /\ (Js.get extra "has_downloadable_document" = Js.Undefined ->
      Disambiguation.canDownload_payload (Disambiguation.result props) extra
      = Js.Undefined
      /\ exists view,
           Disambiguation.ResultCard_payload props extra = Some view
           /\ Disambiguation.cannot_auto_download view = true).
Proof.
  destruct (ResultCard_payload_view props extra) as (view & Hview & Hcannot & _).
  split; [apply get_has_downloadable_document|].
  split; [apply payload_get_has_downloadable_document|].
  split; [exists view; auto|].
  intros Habsent. split.
  - unfold Disambiguation.canDownload_payload, Disambiguation.canDownload_object.
    rewrite payload_get_has_downloadable_document, Habsent. reflexivity.
  - exists view. split; [exact Hview|]. rewrite Hcannot, Habsent. reflexivity.
Qed.

Lemma canDownload_reads_undeclared_property_witness :
  Disambiguation.canDownload_payload Samples.smith_v_jones [] = Js.Undefined
  /\ exists view,
       Disambiguation.ResultCard_payload (Samples.card Samples.smith_v_jones) []
       = Some view
       /\ Disambiguation.cannot_auto_download view = true.
Proof.
  apply (canDownload_reads_undeclared_property
           (Samples.card Samples.smith_v_jones) []).
  reflexivity.
Defined.

(** C3 (as stated) fails: an exact match that is not civil procedure and
    has a PDF, received with [has_downloadable_document: true] in its JSON
    object, has [canDownload = true] and its card does not show "Cannot
    auto-download". *)
Lemma canDownload_counterexample :
  citation_match_type Samples.smith_v_jones = exact
  /\ is_civil_procedure Samples.smith_v_jones = false
  /\ pdf (available_documents Samples.smith_v_jones) = true
  /\ Disambiguation.canDownload_payload Samples.smith_v_jones
       [("has_downloadable_document", Js.Bool true)] = Js.Bool true
  /\ Disambiguation.cannot_auto_download
       <$> Disambiguation.ResultCard_payload (Samples.card Samples.smith_v_jones)
             [("has_downloadable_document", Js.Bool true)]
     = Some false.
Proof. vm_compute. auto. Qed.

(** The same result received with the declared fields only. *)
Example canDownload_smith_v_jones :
  citation_match_type Samples.smith_v_jones = exact
  /\ is_civil_procedure Samples.smith_v_jones = false
  /\ pdf (available_documents Samples.smith_v_jones) = true
  /\ Disambiguation.cannot_auto_download
       <$> Disambiguation.ResultCard (Samples.card Samples.smith_v_jones)
     = Some true.
Proof. vm_compute. auto. Qed.

(** ** Explicit selection *)



(** ** The match-type vocabulary *)

(** C6.  [CitationMatchType] has exactly the four members [exact],
    [similar_volume], [year_match_only] and [none], with distinct names;
    the keys of [matchTypeConfig] are exactly these names, each once, so
    every match type has exactly one badge configuration and every card
    renders. *)
Theorem matchTypeConfig_total :
  (forall t : CitationMatchType, t ∈ [exact; similar_volume; year_match_only; none])
  /\ CitationMatchType_name <$> [exact; similar_volume; year_match_only; none]
     = ["exact"; "similar_volume"; "year_match_only"; "none"]
  /\ NoDup (CitationMatchType_name <$> [exact; similar_volume; year_match_only; none])
  /\ Disambiguation.matchTypeConfig_entries.*1
     = CitationMatchType_name <$> [exact; similar_volume; year_match_only; none]
  /\ (forall t : CitationMatchType,
        exists! cfg, Disambiguation.matchTypeConfig !! CitationMatchType_name t = Some cfg)
  /\ (forall t : CitationMatchType,
        length (List.filter
                  (fun entry => String.eqb entry.1 (CitationMatchType_name t))
                  Disambiguation.matchTypeConfig_entries) = 1%nat)
  /\ (forall props, is_Some (Disambiguation.ResultCard props)).
Proof.
  split; [intros []; repeat constructor|].
  split; [reflexivity|].
  split; [compute_done|].
  split; [reflexivity|].
  split.
  { intros t. destruct (matchTypeConfig_lookup t) as [cfg Hcfg].
    exists cfg. split; [exact Hcfg|]. intros cfg' Hcfg'. congruence. }
  split; [intros []; reflexivity|].
  intros props. unfold Disambiguation.ResultCard.
  destruct (matchTypeConfig_lookup
              (citation_match_type (Disambiguation.result props))) as [cfg Hcfg].
  rewrite Hcfg. cbn. eauto.
Qed.

(** ** The case-entry form *)

Lemma filter_from_remove {A : Type} (index : nat) (l : list A) :
  forall start,
    CaseEntryForm.filter_from (fun _ i => negb (i =? index)%nat) start l
    = if (start <=? index)%nat then delete (index - start)%nat l else l.
Proof.
  induction l as [|x l IH]; intros start; cbn [CaseEntryForm.filter_from].
  - destruct (start <=? index)%nat; reflexivity.
  - rewrite IH.
    destruct (Nat.eqb_spec start index) as [Heq|Hne];
      destruct (Nat.leb_spec start index) as [Hle|Hgt];
      destruct (Nat.leb_spec (S start) index) as [Hle'|Hgt'];
      try lia; cbn [negb].
    + subst start. rewrite Nat.sub_diag. reflexivity.
    + replace (index - start)%nat with (S (index - S start)) by lia.
      reflexivity.
    + reflexivity.
Qed.

Lemma filter_from_length {A : Type} (keep : A -> nat -> bool) (l : list A) :
  forall start, length (CaseEntryForm.filter_from keep start l) <= length l.
Proof.
  induction l as [|x l IH]; intros start; cbn; [lia|].
  specialize (IH (S start)). destruct (keep x start); cbn; lia.
Qed.

Lemma removeCase_cases (index : nat) (cases : list ManualCaseEntry)
    (errors : gmap nat string) :
  CaseEntryForm.onChange (CaseEntryForm.removeCase index cases errors)
  = Some (delete index cases).
Proof.
  unfold CaseEntryForm.removeCase, CaseEntryForm.Array_filter. cbn.
  rewrite filter_from_remove. cbn. rewrite Nat.sub_0_r. reflexivity.
Qed.

Lemma shift_errors_lookup (index : nat) (errors : gmap nat string) (k : nat) :
  CaseEntryForm.shift_errors index errors !! k
  = if (k <? index)%nat then errors !! k else errors !! S k.
Proof.
  revert k. unfold CaseEntryForm.shift_errors.
  apply (map_fold_weak_ind
           (fun (r : gmap nat string) (m : gmap nat string) =>
              forall k, r !! k = if (k <? index)%nat then m !! k else m !! S k)).
  - intros k. rewrite !lookup_empty. destruct (k <? index)%nat; reflexivity.
  - intros i x m r Hfresh IH k. specialize (IH k).
    destruct (Nat.ltb_spec i index) as [Hi|Hi];
      [|destruct (Nat.ltb_spec index i) as [Hi'|Hi']];
      destruct (Nat.ltb_spec k index) as [Hk|Hk];
      rewrite ?lookup_insert; repeat case_decide; subst; try lia;
      try reflexivity; try exact IH.
Qed.

Lemma apply_outcome_cases (st : ManualEntry.state) (o : CaseEntryForm.outcome) :
  ManualEntry.st_cases (ManualEntry.apply_outcome st o)
  = default (ManualEntry.st_cases st) (CaseEntryForm.onChange o).
Proof.
  unfold ManualEntry.apply_outcome. destruct (CaseEntryForm.onChange o); reflexivity.
Qed.

Lemma handleSubmit_cases (st : ManualEntry.state) :
  ManualEntry.st_cases (ManualEntry.handleSubmit st).1 = ManualEntry.st_cases st.
Proof.
  unfold ManualEntry.handleSubmit, ManualEntry.validateForm.
  destruct (negb _); reflexivity.
Qed.

Lemma step_cases_bound (st : ManualEntry.state) (e : ManualEntry.event) :
  length (ManualEntry.st_cases st) <= 100 ->
  length (ManualEntry.st_cases (ManualEntry.step st e)) <= 100.
Proof.
  intros Hbound. destruct e as [|index|index f value|checked|]; cbn [ManualEntry.step].
  - rewrite apply_outcome_cases. unfold CaseEntryForm.addCase, ManualEntry.maxCases.
    destruct (Z.geb_spec (Z.of_nat (length (ManualEntry.st_cases st))) 100) as [Hge|Hlt];
      cbn; [exact Hbound|].
    rewrite length_app. cbn. lia.
  - destruct (_ && _); [|exact Hbound].
    rewrite apply_outcome_cases. cbn. unfold CaseEntryForm.Array_filter.
    pose proof (filter_from_length
                  (fun (_ : ManualCaseEntry) i => negb (i =? index)%nat)
                  (ManualEntry.st_cases st) 0) as Hlen.
    lia.
  - destruct (_ <? _)%nat; [|exact Hbound].
    rewrite apply_outcome_cases. cbn. rewrite length_imap. exact Hbound.
  - exact Hbound.
  - destruct (_ =? _)%nat; [exact Hbound|]. rewrite handleSubmit_cases. exact Hbound.
Qed.

Lemma foldl_step_cases_bound (es : list ManualEntry.event) :
  forall st, length (ManualEntry.st_cases st) <= 100 ->
    length (ManualEntry.st_cases (foldl ManualEntry.step st es)) <= 100.
Proof.
  induction es as [|e es IH]; intros st Hbound; cbn; [exact Hbound|].
  apply IH, step_cases_bound, Hbound.
Qed.

(** C9.  [addCase] leaves the list alone (it does not call [onChange])
    when the list already has [maxCases] entries or more, and otherwise
    hands [onChange] the list with one blank entry appended, the existing
    entries unchanged; with [maxCases = 100], as the page sets it, the list
    never holds more than 100 entries, whatever the user does. *)
Theorem addCase_respects_maxCases :
  (forall (maxCases : Z) cases errors,
     (maxCases <= Z.of_nat (length cases))%Z ->
     CaseEntryForm.addCase maxCases cases errors
     = {| CaseEntryForm.onChange := None; CaseEntryForm.errors_after := errors |})
  /\ (forall (maxCases : Z) cases errors,
        (Z.of_nat (length cases) < maxCases)%Z ->
        exists newCases,
          CaseEntryForm.onChange (CaseEntryForm.addCase maxCases cases errors)
          = Some newCases
          /\ newCases = cases ++ [CaseEntryForm.blank]
          /\ length newCases = S (length cases)
          /\ take (length cases) newCases = cases)
  /\ (forall st,
        ManualEntry.st_cases (ManualEntry.step st ManualEntry.AddCase)
        = if (100 <=? length (ManualEntry.st_cases st))%nat
          then ManualEntry.st_cases st
          else ManualEntry.st_cases st ++ [CaseEntryForm.blank])
  /\ (forall events, length (ManualEntry.st_cases (ManualEntry.run events)) <= 100).
Proof.
  split; [|split; [|split]].
  - intros maxCases cases errors Hfull. unfold CaseEntryForm.addCase.
    destruct (Z.geb_spec (Z.of_nat (length cases)) maxCases); [reflexivity|lia].
  - intros maxCases cases errors Hroom. unfold CaseEntryForm.addCase.
    destruct (Z.geb_spec (Z.of_nat (length cases)) maxCases); [lia|].
    eexists. split; [reflexivity|]. split; [reflexivity|].
    split; [rewrite length_app; cbn; lia|].
    rewrite take_app_length. reflexivity.
  - intros st. cbn [ManualEntry.step]. rewrite apply_outcome_cases.
    unfold CaseEntryForm.addCase, ManualEntry.maxCases.
    destruct (Z.geb_spec (Z.of_nat (length (ManualEntry.st_cases st))) 100);
      destruct (Nat.leb_spec 100 (length (ManualEntry.st_cases st)));
      try lia; reflexivity.
  - intros events. apply foldl_step_cases_bound. cbn. lia.
Qed.

Lemma addCase_respects_maxCases_witness :
  CaseEntryForm.addCase 2 [CaseEntryForm.blank; CaseEntryForm.blank] ∅
  = {| CaseEntryForm.onChange := None; CaseEntryForm.errors_after := ∅ |}
  /\ exists newCases,
       CaseEntryForm.onChange (CaseEntryForm.addCase 2 [CaseEntryForm.blank] ∅)
       = Some newCases
       /\ newCases = [CaseEntryForm.blank] ++ [CaseEntryForm.blank]
       /\ length newCases = 2%nat
       /\ take 1 newCases = [CaseEntryForm.blank].
Proof.
  destruct addCase_respects_maxCases as (Hfull & Hroom & _ & _).
  split.
  - apply Hfull. cbn. lia.
  - apply (Hroom 2%Z [CaseEntryForm.blank] ∅). cbn. lia.
Defined.

(** C10.  [removeCase(index)] hands [onChange] the list without its entry
    at [index], the others in their order, and rebuilds the error map so
    that an error at a key below [index] stays, an error at a key above
    [index] moves down by one, and the error at [index] is dropped;
    nothing else is in the new map. *)
Theorem removeCase_reindexes
    (index : nat) (cases : list ManualCaseEntry) (errors : gmap nat string) :
  let o := CaseEntryForm.removeCase index cases errors in
  (exists newCases,
     CaseEntryForm.onChange o = Some newCases
     /\ newCases = take index cases ++ drop (S index) cases
     /\ forall k, newCases !! k
                  = if (k <? index)%nat then cases !! k else cases !! S k)
  /\ (forall k message,
        errors !! k = Some message ->
        (k < index -> CaseEntryForm.errors_after o !! k = Some message)
        /\ (index < k -> CaseEntryForm.errors_after o !! (k - 1)%nat = Some message))
  /\ (forall k' message,
        CaseEntryForm.errors_after o !! k' = Some message ->
        exists k, errors !! k = Some message /\ k <> index
                  /\ k' = if (k <? index)%nat then k else (k - 1)%nat)
  /\ (forall k,
        CaseEntryForm.errors_after o !! k
        = if (k <? index)%nat then errors !! k else errors !! S k).
Proof.
  intros o. subst o. split; [|split; [|split]].
  - exists (delete index cases). split; [apply removeCase_cases|].
    split; [apply delete_take_drop|].
    intros k. destruct (Nat.ltb_spec k index).
    + apply list_lookup_delete_lt; lia.
    + apply list_lookup_delete_ge; lia.
  - intros k message Hk. cbn [CaseEntryForm.removeCase CaseEntryForm.errors_after]. rewrite !shift_errors_lookup. split; intros Hcmp.
    + destruct (Nat.ltb_spec k index); [exact Hk|lia].
    + destruct (Nat.ltb_spec (k - 1) index); [lia|].
      replace (S (k - 1)) with k by lia. exact Hk.
  - intros k' message. cbn [CaseEntryForm.removeCase CaseEntryForm.errors_after]. rewrite shift_errors_lookup.
    destruct (Nat.ltb_spec k' index) as [Hlt|Hge]; intros Hk'.
    + exists k'. destruct (Nat.ltb_spec k' index); [|lia].
      split; [exact Hk'|]. split; [lia|reflexivity].
    + exists (S k'). destruct (Nat.ltb_spec (S k') index); [lia|].
      split; [exact Hk'|]. split; lia.
  - intros k. cbn [CaseEntryForm.removeCase CaseEntryForm.errors_after]. apply shift_errors_lookup.
Qed.

Lemma removeCase_reindexes_witness :
  let errors : gmap nat string :=
    <[0%nat := "first"]> (<[1%nat := "second"]> (<[2%nat := "third"]> ∅)) in
  let o := CaseEntryForm.removeCase 1 [] errors in
  CaseEntryForm.errors_after o !! 0%nat = Some "first"
  /\ CaseEntryForm.errors_after o !! 1%nat = Some "third".
Proof.
  intros errors o.
  destruct (removeCase_reindexes 1 [] errors) as (_ & Hmove & _ & _).
  split.
  - destruct (Hmove 0%nat "first") as [Hstay _]; [reflexivity|].
    apply Hstay. lia.
  - destruct (Hmove 2%nat "third") as [_ Hdown]; [reflexivity|].
    apply Hdown. lia.
Defined.

(** ** Trimming *)

Lemma trimStart_nil (s : JsString.t) :
  JsString.trimStart s = [] <-> JsString.blank s.
Proof.
  unfold JsString.blank. induction s as [|c s IH]; cbn.
  - split; [constructor|reflexivity].
  - destruct (JsString.isTrimmed c) eqn:Hc.
    + rewrite IH. split; [intros H; constructor; assumption|].
      intros H. inversion H. assumption.
    + split; [discriminate|]. intros H. inversion H. congruence.
Qed.

Lemma trimStart_blank (s : JsString.t) :
  JsString.blank (JsString.trimStart s) -> JsString.trimStart s = [].
Proof.
  unfold JsString.blank. induction s as [|c s IH]; cbn; [reflexivity|].
  destruct (JsString.isTrimmed c) eqn:Hc; [exact IH|].
  intros H. inversion H. congruence.
Qed.

Lemma reverse_eq_nil {A : Type} (l : list A) : reverse l = [] -> l = [].
Proof.
  intros H. apply (f_equal length) in H. rewrite length_reverse in H.
  destruct l; [reflexivity|discriminate].
Qed.

(** [trim] leaves nothing exactly when the string is blank. *)
Lemma trim_nil (s : JsString.t) : JsString.trim s = [] <-> JsString.blank s.
Proof.
  unfold JsString.trim, JsString.trimEnd. split.
  - intros H. apply reverse_eq_nil in H. apply trimStart_nil in H.
    unfold JsString.blank in H. rewrite Forall_reverse in H.
    apply trimStart_nil, trimStart_blank, H.
  - intros H. apply trimStart_nil in H. rewrite H. reflexivity.
Qed.

Lemma truthy_trim (s : JsString.t) :
  JsString.truthy (JsString.trim s) = true <-> ~ JsString.blank s.
Proof.
  rewrite <- trim_nil. destruct (JsString.trim s); cbn.
  - split; [discriminate|]. intros H. destruct H. reflexivity.
  - split; [discriminate|reflexivity].
Qed.

Lemma party_name_blank_false (c : ManualCaseEntry) :
  ManualEntry.party_name_blank c = false <-> ~ JsString.blank (party_name c).
Proof.
  unfold ManualEntry.party_name_blank. rewrite <- truthy_trim.
  destruct (JsString.truthy _); cbn; split; congruence.
Qed.

(** ** Validation and submission of a manual batch *)

Lemma validateForm_fold_nil (l : list (nat * ManualCaseEntry)) :
  forall errors : list string,
    foldl
      (fun errors '(index, caseEntry) =>
         if ManualEntry.party_name_blank caseEntry
         then errors ++ ["Case #" +:+ pretty (index + 1)%nat
                         +:+ ": Party name is required"]
         else errors)
      errors l = []
    <-> errors = [] /\ Forall (fun p => ManualEntry.party_name_blank p.2 = false) l.
Proof.
  induction l as [|[index caseEntry] l IH]; intros errors; cbn [foldl].
  - split; [intros ->; split; [reflexivity|constructor]|intros [-> _]; reflexivity].
  - rewrite IH. rewrite Forall_cons. cbn [snd].
    destruct (ManualEntry.party_name_blank caseEntry).
    + split.
      * intros [Happ _]. destruct errors; discriminate Happ.
      * intros (_ & Hfalse & _). discriminate Hfalse.
    + split; [intros [-> Hl]; auto|intros (-> & _ & Hl); auto].
Qed.

Lemma Forall_imap_pair {A : Type} (P : A -> Prop) (l : list A) :
  Forall (fun p : nat * A => P p.2) (imap pair l) <-> Forall P l.
Proof.
  rewrite !Forall_lookup. split.
  - intros H i x Hx. apply (H i (i, x)). rewrite list_lookup_imap, Hx. reflexivity.
  - intros H i [j x] Hx. rewrite list_lookup_imap in Hx.
    destruct (l !! i) as [y|] eqn:Hy; [|discriminate].
    cbn in Hx. injection Hx as <- <-. cbn. eapply H, Hy.
Qed.

Lemma validateForm_errors_nil (cases : list ManualCaseEntry) :
  ManualEntry.validateForm_errors cases = []
  <-> cases <> [] /\ Forall (fun c => ~ JsString.blank (party_name c)) cases.
Proof.
  unfold ManualEntry.validateForm_errors. rewrite validateForm_fold_nil.
  rewrite (Forall_imap_pair (fun c => ManualEntry.party_name_blank c = false)).
  rewrite (Forall_iff (fun c => ManualEntry.party_name_blank c = false) cases
             (fun c => ~ JsString.blank (party_name c)))
    by (intros c; apply party_name_blank_false).
  destruct cases; cbn; split; intros [H1 H2]; split; auto; congruence.
Qed.

Lemma validateForm_true (st : ManualEntry.state) :
  (ManualEntry.validateForm st).2 = true
  <-> ManualEntry.st_cases st <> []
      /\ Forall (fun c => ~ JsString.blank (party_name c)) (ManualEntry.st_cases st).
Proof.
  rewrite <- validateForm_errors_nil. unfold ManualEntry.validateForm. cbn.
  destruct (ManualEntry.validateForm_errors (ManualEntry.st_cases st)); cbn;
    split; congruence.
Qed.

Lemma filter_party_name_id (cases : list ManualCaseEntry) :
  Forall (fun c => ~ JsString.blank (party_name c)) cases ->
  filter (fun c => JsString.truthy (JsString.trim (party_name c)) = true) cases
  = cases.
Proof.
  induction 1 as [|c cases Hc _ IH]; [reflexivity|].
  rewrite filter_cons_True by (apply truthy_trim, Hc). rewrite IH. reflexivity.
Qed.

Lemma trim_or_undefined_None (s : option JsString.t) :
  ManualEntry.trim_or_undefined s = None
  <-> s = None \/ exists x, s = Some x /\ JsString.blank x.
Proof.
  destruct s as [x|]; cbn.
  - destruct (JsString.truthy (JsString.trim x)) eqn:Ht.
    + split; [discriminate|]. intros [H|(y & [= <-] & Hb)]; [discriminate|].
      apply truthy_trim in Ht. contradiction.
    + split; [|reflexivity]. intros _. right. exists x. split; [reflexivity|].
      apply trim_nil. destruct (JsString.trim x); [reflexivity|discriminate].
  - split; auto.
Qed.

Lemma trim_or_undefined_Some (s : option JsString.t) (y : JsString.t) :
  ManualEntry.trim_or_undefined s = Some y
  <-> exists x, s = Some x /\ y = JsString.trim x /\ y <> [].
Proof.
  destruct s as [x|]; cbn.
  - destruct (JsString.trim x) as [|c r] eqn:Ht; cbn.
    + split; [discriminate|]. intros (x' & [= <-] & -> & Hne). congruence.
    + split.
      * intros [= <-]. exists x. rewrite Ht. auto.
      * intros (x' & [= <-] & -> & _). rewrite Ht. reflexivity.
  - split; [discriminate|]. intros (x & H & _). discriminate.
Qed.

(** C7.  Validation of the manually entered cases succeeds exactly when
    the list is not empty and every party name is non-empty after
    trimming; a failed validation submits nothing; a successful one hands
    the mutation one case per entered case, in order, each with its
    trimmed party name, and with citation and notes either absent (when
    the entered value is absent or blank) or the non-empty trimmed text. *)
Theorem manual_batch_submission (st : ManualEntry.state) :
  ((ManualEntry.validateForm st).2 = true
   <-> ManualEntry.st_cases st <> []
       /\ Forall (fun c => JsString.trim (party_name c) <> [])
                 (ManualEntry.st_cases st))
  /\ ((ManualEntry.validateForm st).2 = false ->
        (ManualEntry.handleSubmit st).2 = None)
  /\ ((ManualEntry.validateForm st).2 = true ->
        exists request,
          (ManualEntry.handleSubmit st).2 = Some request
          /\ ManualEntry.auto_download_exact_matches request
             = ManualEntry.autoDownload st
          /\ length (ManualEntry.cases request) = length (ManualEntry.st_cases st)
          /\ forall i c,
               ManualEntry.st_cases st !! i = Some c ->
               exists sent,
                 ManualEntry.cases request !! i = Some sent
                 /\ party_name sent = JsString.trim (party_name c)
                 /\ party_name sent <> []
                 /\ (citation sent = None
                     <-> citation c = None
                         \/ exists x, citation c = Some x /\ JsString.blank x)
                 /\ (forall y, citation sent = Some y
                       <-> exists x, citation c = Some x
                                     /\ y = JsString.trim x /\ y <> [])
                 /\ (notes sent = None
                     <-> notes c = None
                         \/ exists x, notes c = Some x /\ JsString.blank x)
                 /\ (forall y, notes sent = Some y
                       <-> exists x, notes c = Some x
                                     /\ y = JsString.trim x /\ y <> [])).
Proof.
  assert (Hvalid : (ManualEntry.validateForm st).2 = true
            <-> ManualEntry.st_cases st <> []
                /\ Forall (fun c => JsString.trim (party_name c) <> [])
                          (ManualEntry.st_cases st)).
  { rewrite validateForm_true.
    rewrite (Forall_iff (fun c => ~ JsString.blank (party_name c))
               (ManualEntry.st_cases st)
               (fun c => JsString.trim (party_name c) <> []))
      by (intros c; rewrite trim_nil; reflexivity).
    reflexivity. }
  split; [exact Hvalid|]. split.
  - intros Hfail. unfold ManualEntry.handleSubmit.
    destruct (ManualEntry.validateForm st) as [st' ok]. cbn in Hfail. subst ok.
    reflexivity.
  - intros Hok. pose proof (proj1 (validateForm_true st) Hok) as [_ Hall].
    unfold ManualEntry.handleSubmit.
    destruct (ManualEntry.validateForm st) as [st' ok]. cbn in Hok. subst ok.
    cbn [negb snd]. rewrite (filter_party_name_id _ Hall).
    eexists. split; [reflexivity|]. cbn [ManualEntry.auto_download_exact_matches
                                          ManualEntry.cases].
    split; [reflexivity|]. split; [apply length_map|].
    intros i c Hc. eexists. split.
    { change (@map ManualCaseEntry ManualCaseEntry) with (@fmap list _ ManualCaseEntry ManualCaseEntry).
      rewrite list_lookup_fmap, Hc. reflexivity. }
    cbn [party_name citation notes].
    split; [reflexivity|]. split.
    { rewrite Forall_lookup in Hall. rewrite trim_nil. exact (Hall i c Hc). }
    split; [apply trim_or_undefined_None|].
    split; [intros y; apply trim_or_undefined_Some|].
    split; [apply trim_or_undefined_None|].
    intros y; apply trim_or_undefined_Some.
Qed.

Lemma manual_batch_submission_witness :
  exists request,
    (ManualEntry.handleSubmit Samples.manual_page).2 = Some request
    /\ ManualEntry.cases request
       = [{| party_name := JsString.of_string "Smith v Jones";
             citation := None; notes := None |}].
Proof.
  destruct (manual_batch_submission Samples.manual_page) as (_ & _ & Hsent).
  destruct Hsent as (request & Hreq & _); [vm_compute; reflexivity|].
  exists request. split; [exact Hreq|].
  vm_compute in Hreq. injection Hreq as <-. reflexivity.
Defined.

(** ** The event stream and the poll *)

(** C8.  A frame that does not parse leaves the hook's state as it was
    and calls [onMessage] not at all; a frame that parses makes
    [lastMessage] the parsed message (and is handed to [onMessage] when
    there is one); and each of the dashboard's three queries, for the
    batch, its statistics and its cases, is set to refetch every 5000
    milliseconds, whatever the hook's state, polling whenever a batch is
    selected. *)
Theorem websocket_frames_and_polling
    (JSON_parse : string -> option Js.value) (opts : UseWebSocket.options)
    (st : UseWebSocket.state) (data : string) :
  (JSON_parse data = None ->
     (UseWebSocket.onmessage JSON_parse opts st data).1 = st
     /\ UseWebSocket.onMessage_calls
          (UseWebSocket.onmessage JSON_parse opts st data).2 = [])
  /\ (forall message,
        JSON_parse data = Some message ->
        UseWebSocket.lastMessage
          (UseWebSocket.onmessage JSON_parse opts st data).1 = message
        /\ UseWebSocket.isConnected
             (UseWebSocket.onmessage JSON_parse opts st data).1
           = UseWebSocket.isConnected st
        /\ UseWebSocket.onMessage_calls
             (UseWebSocket.onmessage JSON_parse opts st data).2
           = match UseWebSocket.onMessage opts with
             | Some _ => [message]
             | None => []
             end)
  /\ Dashboard.queries
     = [Dashboard.batchQuery; Dashboard.statsQuery; Dashboard.casesQuery]
  /\ (forall q selectedBatchId,
        Dashboard.refetchInterval (Dashboard.useQuery q selectedBatchId)
        = Some 5000%Z
        /\ Dashboard.enabled (Dashboard.useQuery q selectedBatchId)
           = UseWebSocket.batchId_truthy selectedBatchId
        /\ (UseWebSocket.batchId_truthy selectedBatchId = true ->
            forall n,
              Dashboard.poll_times (Dashboard.useQuery q selectedBatchId) n
              = (fun k => (5000 * Z.of_nat (S k))%Z) <$> seq 0 n)).
Proof.
  split; [|split; [|split]].
  - intros Hfail. unfold UseWebSocket.onmessage. rewrite Hfail. auto.
  - intros message Hparse. unfold UseWebSocket.onmessage. rewrite Hparse.
    destruct (UseWebSocket.onMessage opts) as [cb|]; cbn; [|auto].
    destruct (cb message); auto.
  - reflexivity.
  - intros q selectedBatchId. split; [reflexivity|]. split; [reflexivity|].
    intros Hsel n. unfold Dashboard.poll_times. cbn. rewrite Hsel.
    apply list_fmap_ext. intros _ k _. lia.
Qed.

Lemma websocket_frames_and_polling_witness :
  ((UseWebSocket.onmessage Samples.parse_literal Samples.hook_options
      UseWebSocket.initial "not json").1 = UseWebSocket.initial
   /\ UseWebSocket.onMessage_calls
        (UseWebSocket.onmessage Samples.parse_literal Samples.hook_options
           UseWebSocket.initial "not json").2 = [])
  /\ UseWebSocket.lastMessage
       (UseWebSocket.onmessage Samples.parse_literal Samples.hook_options
          UseWebSocket.initial "true").1 = Js.Bool true
  /\ Dashboard.poll_times (Dashboard.useQuery Dashboard.statsQuery (Some "batch-1")) 3
     = [5000%Z; 10000%Z; 15000%Z].
Proof.
  split; [|split].
  - apply (websocket_frames_and_polling Samples.parse_literal Samples.hook_options
             UseWebSocket.initial "not json").
    reflexivity.
  - apply (websocket_frames_and_polling Samples.parse_literal Samples.hook_options
             UseWebSocket.initial "true" ).
    reflexivity.
  - destruct (websocket_frames_and_polling Samples.parse_literal Samples.hook_options
                UseWebSocket.initial "true") as (_ & _ & _ & Hpoll).
    destruct (Hpoll Dashboard.statsQuery (Some "batch-1")) as (_ & _ & Htimes).
    rewrite Htimes; reflexivity.
Defined.

(** * Further properties of the modelled code *)

(** ** The form's own validation *)

Lemma validateAll_snoc (cases : list ManualCaseEntry) (c : ManualCaseEntry) :
  CaseEntryForm.validateAll (cases ++ [c])
  = if ManualEntry.party_name_blank c
    then (false, <[length cases := "Party name is required"]>
                   (CaseEntryForm.validateAll cases).2)
    else CaseEntryForm.validateAll cases.
Proof.
  unfold CaseEntryForm.validateAll. rewrite imap_app, foldl_app.
  cbn [imap foldl]. rewrite Nat.add_0_r.
  destruct (foldl _ _ (imap pair cases)) as [isValid newErrors].
  unfold ManualEntry.party_name_blank.
  destruct (negb _); reflexivity.
Qed.

Lemma validateAll_valid (cases : list ManualCaseEntry) :
  (CaseEntryForm.validateAll cases).1 = true
  <-> Forall (fun c => ManualEntry.party_name_blank c = false) cases.
Proof.
  induction cases as [|c cases IH] using rev_ind.
  - split; [constructor|reflexivity].
  - rewrite validateAll_snoc, Forall_app, Forall_singleton.
    destruct (ManualEntry.party_name_blank c); cbn.
    + split; [discriminate|]. intros [_ H]. discriminate H.
    + rewrite IH. split; [auto|]. intros [H _]. exact H.
Qed.

Lemma validateAll_lookup (cases : list ManualCaseEntry) (k : nat) :
  (CaseEntryForm.validateAll cases).2 !! k
  = match cases !! k with
    | Some c =>
        if ManualEntry.party_name_blank c
        then Some "Party name is required" else None
    | None => None
    end.
Proof.
  induction cases as [|c cases IH] using rev_ind.
  - cbn. rewrite lookup_empty. reflexivity.
  - rewrite validateAll_snoc.
    destruct (Nat.lt_trichotomy k (length cases)) as [Hlt|[->|Hgt]].
    + rewrite lookup_app_l by exact Hlt.
      destruct (ManualEntry.party_name_blank c); cbn [snd]; [|exact IH].
      rewrite lookup_insert_ne by lia. exact IH.
    + rewrite list_lookup_middle by reflexivity.
      destruct (ManualEntry.party_name_blank c); cbn [snd].
      * apply lookup_insert_eq.
      * rewrite IH, lookup_ge_None_2 by lia. reflexivity.
    + rewrite (lookup_ge_None_2 (cases ++ [c])) by (rewrite length_app; cbn; lia).
      rewrite (lookup_ge_None_2 cases) in IH by lia.
      destruct (ManualEntry.party_name_blank c); cbn [snd]; [|exact IH].
      rewrite lookup_insert_ne by lia. exact IH.
Qed.

Lemma party_name_blank_trim (c : ManualCaseEntry) :
  ManualEntry.party_name_blank c = false <-> JsString.trim (party_name c) <> [].
Proof. rewrite party_name_blank_false, trim_nil. reflexivity. Qed.

(** X1.  [validateAll] answers [true] exactly when every party name is
    non-empty after trimming, and the error map it stores has the entry
    "Party name is required" at the positions of the cases whose party
    name is empty after trimming and no other entry. *)
Theorem validateAll_marks_blank_names (cases : list ManualCaseEntry) :
  ((CaseEntryForm.validateAll cases).1 = true
   <-> Forall (fun c => JsString.trim (party_name c) <> []) cases)
  /\ (forall k,
        (CaseEntryForm.validateAll cases).2 !! k = Some "Party name is required"
        <-> exists c, cases !! k = Some c /\ JsString.trim (party_name c) = [])
  /\ (forall k message,
        (CaseEntryForm.validateAll cases).2 !! k = Some message ->
        message = "Party name is required" /\ k < length cases).
Proof.
  split; [|split].
  - rewrite validateAll_valid.
    apply Forall_iff. intros c. apply party_name_blank_trim.
  - intros k. rewrite validateAll_lookup.
    destruct (cases !! k) as [c|] eqn:Hc.
    + pose proof (party_name_blank_trim c) as Hblank.
      destruct (ManualEntry.party_name_blank c).
      * split; [|reflexivity]. intros _. exists c. split; [reflexivity|].
        destruct (JsString.trim (party_name c)); [reflexivity|].
        destruct Hblank as [_ Hblank]. discriminate Hblank. discriminate.
      * split; [discriminate|]. intros (c' & [= <-] & Hempty).
        destruct Hblank as [Hblank _]. destruct (Hblank eq_refl Hempty).
    + split; [discriminate|]. intros (c & Hc' & _). discriminate Hc'.
  - intros k message. rewrite validateAll_lookup.
    destruct (cases !! k) as [c|] eqn:Hc; [|discriminate].
    destruct (ManualEntry.party_name_blank c); [|discriminate].
    intros [= <-]. split; [reflexivity|]. eapply lookup_lt_Some, Hc.
Qed.

Lemma validateAll_marks_blank_names_witness :
  (CaseEntryForm.validateAll [MoreSamples.smith; MoreSamples.blank_entry]).2 !! 1%nat
  = Some "Party name is required".
Proof.
  destruct (validateAll_marks_blank_names
              [MoreSamples.smith; MoreSamples.blank_entry]) as (_ & Hmark & _).
  apply Hmark. exists MoreSamples.blank_entry. split; reflexivity.
Defined.

(** ** The two validators *)

Lemma string_length_app (s t : string) :
  String.length (s +:+ t) = (String.length s + String.length t)%nat.
Proof.
  induction s as [|a s IH]; [reflexivity|].
  change (S (String.length (s +:+ t)) = S (String.length s + String.length t)).
  f_equal. exact IH.
Qed.

Lemma string_app_inj_r (s1 s2 t : string) : s1 +:+ t = s2 +:+ t -> s1 = s2.
Proof.
  revert s2. induction s1 as [|a s1 IH]; intros [|b s2] H.
  - reflexivity.
  - apply (f_equal String.length) in H. rewrite !string_length_app in H.
    cbn in H. lia.
  - apply (f_equal String.length) in H. rewrite !string_length_app in H.
    cbn in H. lia.
  - change (String a (s1 +:+ t) = String b (s2 +:+ t)) in H.
    injection H as -> H. rewrite (IH s2 H). reflexivity.
Qed.

Lemma case_message_inj (i j : nat) :
  "Case #" +:+ pretty (i + 1)%nat +:+ ": Party name is required"
  = "Case #" +:+ pretty (j + 1)%nat +:+ ": Party name is required" ->
  i = j.
Proof.
  intros H. apply (inj (String.app "Case #")) in H.
  apply string_app_inj_r in H. apply (inj pretty) in H. lia.
Qed.

Lemma elem_of_imap_pair {A : Type} (l : list A) (i : nat) (x : A) :
  (i, x) ∈ imap pair l <-> l !! i = Some x.
Proof.
  rewrite list_elem_of_lookup. split.
  - intros (k & Hk). rewrite list_lookup_imap in Hk.
    destruct (l !! k) as [y|] eqn:Hy; [|discriminate].
    cbn in Hk. injection Hk as <- <-. exact Hy.
  - intros Hx. exists i. rewrite list_lookup_imap, Hx. reflexivity.
Qed.

Lemma validateForm_fold_elem (l : list (nat * ManualCaseEntry)) (x : string) :
  forall errors : list string,
    x ∈ foldl
          (fun errors '(index, caseEntry) =>
             if ManualEntry.party_name_blank caseEntry
             then errors ++ ["Case #" +:+ pretty (index + 1)%nat
                             +:+ ": Party name is required"]
             else errors)
          errors l
    <-> x ∈ errors
        \/ exists i c, (i, c) ∈ l /\ ManualEntry.party_name_blank c = true
             /\ x = "Case #" +:+ pretty (i + 1)%nat +:+ ": Party name is required".
Proof.
  induction l as [|[index caseEntry] l IH]; intros errors; cbn [foldl].
  - split; [auto|]. intros [H|(i & c & Hin & _)]; [exact H|inversion Hin].
  - rewrite IH. destruct (ManualEntry.party_name_blank caseEntry) eqn:Hb.
    + rewrite elem_of_app, list_elem_of_singleton. split.
      * intros [[H| ->]|(i & c & Hin & Hc & ->)]; [auto| |].
        -- right. exists index, caseEntry. split; [constructor|auto].
        -- right. exists i, c. split; [constructor; exact Hin|auto].
      * intros [H|(i & c & Hin & Hc & ->)]; [auto|].
        apply elem_of_cons in Hin. destruct Hin as [[= -> ->]|Hin]; [auto|].
        right. exists i, c. auto.
    + split.
      * intros [H|(i & c & Hin & Hc & ->)]; [auto|].
        right. exists i, c. split; [constructor; exact Hin|auto].
      * intros [H|(i & c & Hin & Hc & ->)]; [auto|].
        apply elem_of_cons in Hin. destruct Hin as [[= -> ->]|Hin]; [congruence|].
        right. exists i, c. auto.
Qed.

Lemma validateForm_errors_elem (cases : list ManualCaseEntry) (x : string) :
  x ∈ ManualEntry.validateForm_errors cases
  <-> (cases = [] /\ x = "Please add at least one case")
      \/ exists i c, cases !! i = Some c /\ ManualEntry.party_name_blank c = true
           /\ x = "Case #" +:+ pretty (i + 1)%nat +:+ ": Party name is required".
Proof.
  unfold ManualEntry.validateForm_errors. rewrite validateForm_fold_elem.
  split.
  - intros [H|(i & c & Hin & Hc & ->)].
    + left. destruct cases; cbn in H; [|inversion H].
      apply list_elem_of_singleton in H. auto.
    + right. exists i, c. rewrite <- elem_of_imap_pair. auto.
  - intros [[-> ->]|(i & c & Hin & Hc & ->)].
    + left. cbn. constructor.
    + right. exists i, c. rewrite elem_of_imap_pair. auto.
Qed.

(** X2.  The page's [validateForm] and the form's [validateAll] agree:
    [validateForm] succeeds exactly when the list is not empty and
    [validateAll] succeeds, and it reports "Case #k+1: Party name is
    required" exactly for the positions [k] that [validateAll] marks in its
    error map. *)
Theorem validators_agree (st : ManualEntry.state) :
  (ManualEntry.validateForm st).2
  = negb (length (ManualEntry.st_cases st) =? 0)%nat
    && (CaseEntryForm.validateAll (ManualEntry.st_cases st)).1
  /\ forall k,
       ("Case #" +:+ pretty (k + 1)%nat +:+ ": Party name is required")
         ∈ ManualEntry.validationErrors (ManualEntry.validateForm st).1
       <-> is_Some ((CaseEntryForm.validateAll (ManualEntry.st_cases st)).2 !! k).
Proof.
  split.
  - apply Bool.eq_iff_eq_true.
    rewrite validateForm_true, Bool.andb_true_iff, Bool.negb_true_iff,
      Nat.eqb_neq, validateAll_valid.
    rewrite (Forall_iff (fun c => ManualEntry.party_name_blank c = false)
               (ManualEntry.st_cases st)
               (fun c => ~ JsString.blank (party_name c)))
      by (intros c; apply party_name_blank_false).
    destruct (ManualEntry.st_cases st); cbn; split; intros [H1 H2];
      split; auto; congruence.
  - intros k. cbn [ManualEntry.validateForm fst ManualEntry.validationErrors].
    rewrite validateForm_errors_elem, validateAll_lookup. split.
    + intros [[_ H]|(i & c & Hc & Hb & H)]; [discriminate H|].
      apply case_message_inj in H. subst i. rewrite Hc, Hb. eauto.
    + intros [message H]. destruct (ManualEntry.st_cases st !! k) as [c|] eqn:Hc;
        [|discriminate].
      destruct (ManualEntry.party_name_blank c) eqn:Hb; [|discriminate].
      right. exists k, c. auto.
Qed.

Lemma validators_agree_witness :
  ("Case #" +:+ pretty 2%nat +:+ ": Party name is required")
    ∈ ManualEntry.validationErrors
        (ManualEntry.validateForm
           {| ManualEntry.st_cases := [MoreSamples.smith; MoreSamples.blank_entry];
              ManualEntry.autoDownload := true;
              ManualEntry.validationErrors := [];
              ManualEntry.form_errors := ∅ |}).1.
Proof.
  destruct (validators_agree
              {| ManualEntry.st_cases := [MoreSamples.smith; MoreSamples.blank_entry];
                 ManualEntry.autoDownload := true;
                 ManualEntry.validationErrors := [];
                 ManualEntry.form_errors := ∅ |}) as [_ Hmessages].
  apply (Hmessages 1%nat). vm_compute. eauto.
Defined.

(** ** Editing and removing entries *)

Lemma updateCase_errors_lookup (index : nat) (f : CaseEntryForm.field)
    (value : JsString.t) (cases : list ManualCaseEntry)
    (errors : gmap nat string) (k : nat) :
  CaseEntryForm.errors_after (CaseEntryForm.updateCase index f value cases errors) !! k
  = if decide (k = index)
    then match errors !! index with
         | Some message => if String.eqb message "" then Some message else None
         | None => None
         end
    else errors !! k.
Proof.
  unfold CaseEntryForm.updateCase. cbn [CaseEntryForm.errors_after].
  destruct (errors !! index) as [message|] eqn:Hm.
  - destruct (String.eqb message "") eqn:He; case_decide; subst;
      rewrite ?Hm, ?lookup_delete_eq, ?lookup_delete_ne by congruence; reflexivity.
  - case_decide; subst; rewrite ?Hm; reflexivity.
Qed.

Lemma updateCase_cases_lookup (index : nat) (f : CaseEntryForm.field)
    (value : JsString.t) (cases : list ManualCaseEntry)
    (errors : gmap nat string) :
  exists newCases,
    CaseEntryForm.onChange (CaseEntryForm.updateCase index f value cases errors)
    = Some newCases
    /\ length newCases = length cases
    /\ forall k, newCases !! k
                 = if decide (k = index)
                   then (fun c => CaseEntryForm.set_field c f value) <$> cases !! k
                   else cases !! k.
Proof.
  unfold CaseEntryForm.updateCase. cbn [CaseEntryForm.onChange].
  eexists. split; [reflexivity|]. split; [apply length_imap|].
  intros k. rewrite list_lookup_imap.
  case_decide as Hk.
  - subst k. destruct (cases !! index); cbn; [rewrite Nat.eqb_refl|]; reflexivity.
  - destruct (cases !! k); cbn; [|reflexivity].
    destruct (Nat.eqb_spec k index); [contradiction|reflexivity].
Qed.

(** X3.  [updateCase(index, field, value)] hands [onChange] a list of the
    same length in which only the entry at [index] differs, and that entry
    differs only in the edited field, which now holds [value]; in the error
    map only the key [index] can change, and a (non-empty) error message
    there is removed, whichever field was edited. *)
Theorem updateCase_changes_one_entry
    (index : nat) (f : CaseEntryForm.field) (value : JsString.t)
    (cases : list ManualCaseEntry) (errors : gmap nat string) :
  (exists newCases,
     CaseEntryForm.onChange (CaseEntryForm.updateCase index f value cases errors)
     = Some newCases
     /\ length newCases = length cases
     /\ (forall k, k <> index -> newCases !! k = cases !! k)
     /\ (forall c, cases !! index = Some c ->
           exists c', newCases !! index = Some c'
             /\ match f with
                | CaseEntryForm.f_party_name =>
                    party_name c' = value /\ citation c' = citation c
                    /\ notes c' = notes c
                | CaseEntryForm.f_citation =>
                    party_name c' = party_name c /\ citation c' = Some value
                    /\ notes c' = notes c
                | CaseEntryForm.f_notes =>
                    party_name c' = party_name c /\ citation c' = citation c
                    /\ notes c' = Some value
                end))
  /\ (forall k, k <> index ->
        CaseEntryForm.errors_after
          (CaseEntryForm.updateCase index f value cases errors) !! k
        = errors !! k)
  /\ (forall message, errors !! index = Some message -> message <> "" ->
        CaseEntryForm.errors_after
          (CaseEntryForm.updateCase index f value cases errors) !! index = None).
Proof.
  split; [|split].
  - destruct (updateCase_cases_lookup index f value cases errors)
      as (newCases & Hon & Hlen & Hlook).
    exists newCases. split; [exact Hon|]. split; [exact Hlen|]. split.
    + intros k Hk. rewrite Hlook. case_decide; [contradiction|reflexivity].
    + intros c Hc. rewrite Hlook, Hc. case_decide; [|contradiction]. cbn.
      eexists. split; [reflexivity|]. destruct f; cbn; auto.
  - intros k Hk. rewrite updateCase_errors_lookup.
    case_decide; [contradiction|reflexivity].
  - intros message Hm Hne. rewrite updateCase_errors_lookup, Hm.
    case_decide; [|contradiction].
    destruct (String.eqb_spec message ""); [contradiction|reflexivity].
Qed.

Lemma updateCase_changes_one_entry_witness :
  CaseEntryForm.errors_after
    (CaseEntryForm.updateCase 1 CaseEntryForm.f_notes (JsString.of_string "x")
       [MoreSamples.smith; MoreSamples.blank_entry]
       (CaseEntryForm.validateAll [MoreSamples.smith; MoreSamples.blank_entry]).2)
    !! 1%nat = None.
Proof.
  destruct (updateCase_changes_one_entry 1 CaseEntryForm.f_notes
              (JsString.of_string "x")
              [MoreSamples.smith; MoreSamples.blank_entry]
              (CaseEntryForm.validateAll
                 [MoreSamples.smith; MoreSamples.blank_entry]).2)
    as (_ & _ & Hclear).
  apply (Hclear "Party name is required"); [reflexivity|discriminate].
Defined.

(** X4.  Typing a party name that is not blank into the entry at [index]
    of a validated form leaves the error map exactly as validating the
    edited list would make it. *)
Theorem updateCase_party_name_keeps_errors_valid
    (index : nat) (value : JsString.t) (cases : list ManualCaseEntry) :
  JsString.trim value <> [] ->
  exists newCases,
    CaseEntryForm.onChange
      (CaseEntryForm.updateCase index CaseEntryForm.f_party_name value cases
         (CaseEntryForm.validateAll cases).2) = Some newCases
    /\ CaseEntryForm.errors_after
         (CaseEntryForm.updateCase index CaseEntryForm.f_party_name value cases
            (CaseEntryForm.validateAll cases).2)
       = (CaseEntryForm.validateAll newCases).2.
Proof.
  intros Hvalue.
  destruct (updateCase_cases_lookup index CaseEntryForm.f_party_name value cases
              (CaseEntryForm.validateAll cases).2) as (newCases & Hon & _ & Hlook).
  exists newCases. split; [exact Hon|].
  apply map_eq. intros k.
  rewrite updateCase_errors_lookup, !validateAll_lookup, Hlook.
  case_decide as Hk; [|reflexivity]. subst k.
  destruct (cases !! index) as [c|]; cbn; [|reflexivity].
  assert (Hnew : ManualEntry.party_name_blank
            {| party_name := value; citation := citation c; notes := notes c |}
          = false) by (apply party_name_blank_trim; exact Hvalue).
  rewrite Hnew. destruct (ManualEntry.party_name_blank c); reflexivity.
Qed.

Lemma updateCase_party_name_keeps_errors_valid_witness :
  exists newCases,
    CaseEntryForm.onChange
      (CaseEntryForm.updateCase 1 CaseEntryForm.f_party_name
         (JsString.of_string "Smith v Jones")
         [MoreSamples.smith; MoreSamples.blank_entry]
         (CaseEntryForm.validateAll
            [MoreSamples.smith; MoreSamples.blank_entry]).2) = Some newCases
    /\ CaseEntryForm.errors_after
         (CaseEntryForm.updateCase 1 CaseEntryForm.f_party_name
            (JsString.of_string "Smith v Jones")
            [MoreSamples.smith; MoreSamples.blank_entry]
            (CaseEntryForm.validateAll
               [MoreSamples.smith; MoreSamples.blank_entry]).2)
       = (CaseEntryForm.validateAll newCases).2.
Proof.
  apply (updateCase_party_name_keeps_errors_valid 1
           (JsString.of_string "Smith v Jones")
           [MoreSamples.smith; MoreSamples.blank_entry]).
  vm_compute. discriminate.
Defined.

(** X5.  Removing a case from a validated form re-indexes the error map
    to exactly what validating the remaining cases gives. *)
Theorem removeCase_keeps_errors_valid (index : nat) (cases : list ManualCaseEntry) :
  exists newCases,
    CaseEntryForm.onChange
      (CaseEntryForm.removeCase index cases (CaseEntryForm.validateAll cases).2)
    = Some newCases
    /\ CaseEntryForm.errors_after
         (CaseEntryForm.removeCase index cases (CaseEntryForm.validateAll cases).2)
       = (CaseEntryForm.validateAll newCases).2.
Proof.
  exists (delete index cases). split; [apply removeCase_cases|].
  apply map_eq. intros k.
  cbn [CaseEntryForm.removeCase CaseEntryForm.errors_after].
  rewrite shift_errors_lookup, !validateAll_lookup.
  destruct (Nat.ltb_spec k index).
  - rewrite list_lookup_delete_lt by lia. reflexivity.
  - rewrite list_lookup_delete_ge by lia. reflexivity.
Qed.

(** X6.  Adding a case and then removing the added (last) one restores
    the list and, when the error map marks existing cases only, the error
    map. *)
Theorem addCase_then_remove_last
    (maxCases : Z) (cases : list ManualCaseEntry) (errors : gmap nat string) :
  (Z.of_nat (length cases) < maxCases)%Z ->
  (forall k, is_Some (errors !! k) -> k < length cases) ->
  exists added,
    CaseEntryForm.onChange (CaseEntryForm.addCase maxCases cases errors) = Some added
    /\ CaseEntryForm.removeCase (length cases) added
         (CaseEntryForm.errors_after (CaseEntryForm.addCase maxCases cases errors))
       = {| CaseEntryForm.onChange := Some cases;
            CaseEntryForm.errors_after := errors |}.
Proof.
  intros Hroom Hkeys. unfold CaseEntryForm.addCase.
  destruct (Z.geb_spec (Z.of_nat (length cases)) maxCases); [lia|].
  cbn [CaseEntryForm.onChange CaseEntryForm.errors_after].
  eexists. split; [reflexivity|].
  pose proof (removeCase_cases (length cases) (cases ++ [CaseEntryForm.blank]) errors)
    as Hcases.
  rewrite delete_middle, app_nil_r in Hcases.
  destruct (CaseEntryForm.removeCase (length cases)
              (cases ++ [CaseEntryForm.blank]) errors) as [on after] eqn:Hrem.
  cbn in Hcases. subst on. f_equal.
  assert (after = CaseEntryForm.shift_errors (length cases) errors) as ->.
  { unfold CaseEntryForm.removeCase in Hrem. injection Hrem as _ <-. reflexivity. }
  apply map_eq. intros k. rewrite shift_errors_lookup.
  destruct (Nat.ltb_spec k (length cases)) as [Hlt|Hge]; [reflexivity|].
  destruct (errors !! S k) as [m|] eqn:HS.
  { specialize (Hkeys (S k) (ltac:(rewrite HS; eauto))). lia. }
  destruct (errors !! k) as [m|] eqn:Hk; [|reflexivity].
  specialize (Hkeys k (ltac:(rewrite Hk; eauto))). lia.
Qed.

Lemma addCase_then_remove_last_witness :
  exists added,
    CaseEntryForm.onChange
      (CaseEntryForm.addCase 100 [MoreSamples.blank_entry]
         (CaseEntryForm.validateAll [MoreSamples.blank_entry]).2) = Some added
    /\ CaseEntryForm.removeCase 1 added
         (CaseEntryForm.errors_after
            (CaseEntryForm.addCase 100 [MoreSamples.blank_entry]
               (CaseEntryForm.validateAll [MoreSamples.blank_entry]).2))
       = {| CaseEntryForm.onChange := Some [MoreSamples.blank_entry];
            CaseEntryForm.errors_after :=
              (CaseEntryForm.validateAll [MoreSamples.blank_entry]).2 |}.
Proof.
  apply (addCase_then_remove_last 100 [MoreSamples.blank_entry]
           (CaseEntryForm.validateAll [MoreSamples.blank_entry]).2).
  - cbn. lia.
  - intros k [message Hk]. rewrite validateAll_lookup in Hk.
    destruct ([MoreSamples.blank_entry] !! k) as [c|] eqn:Hc; [|discriminate].
    eapply lookup_lt_Some, Hc.
Defined.

(** ** What a submission contains *)

Lemma trimStart_split (s : JsString.t) :
  exists p, s = p ++ JsString.trimStart s /\ JsString.blank p.
Proof.
  induction s as [|c s (p & Hs & Hp)]; cbn.
  - exists []. split; [reflexivity|constructor].
  - destruct (JsString.isTrimmed c) eqn:Hc.
    + exists (c :: p). split; [cbn; congruence|]. constructor; assumption.
    + exists []. split; [reflexivity|constructor].
Qed.

Lemma trimStart_head (s : JsString.t) (c : JsString.code_unit) (r : JsString.t) :
  JsString.trimStart s = c :: r -> JsString.isTrimmed c = false.
Proof.
  induction s as [|x s IH]; cbn; [discriminate|].
  destruct (JsString.isTrimmed x) eqn:Hx; [exact IH|].
  intros [= <- _]. exact Hx.
Qed.

Lemma trimStart_id (s : JsString.t) :
  (forall c r, s = c :: r -> JsString.isTrimmed c = false) ->
  JsString.trimStart s = s.
Proof.
  destruct s as [|c r]; intros H; cbn; [reflexivity|].
  rewrite (H c r eq_refl). reflexivity.
Qed.

Lemma trimEnd_split (s : JsString.t) :
  exists q, s = JsString.trimEnd s ++ q /\ JsString.blank q.
Proof.
  unfold JsString.trimEnd.
  destruct (trimStart_split (reverse s)) as (p & Hs & Hp).
  exists (reverse p). split.
  - rewrite <- reverse_app, <- Hs, reverse_involutive. reflexivity.
  - unfold JsString.blank in *. rewrite Forall_reverse. exact Hp.
Qed.

(** [trim] removes a blank prefix and a blank suffix and nothing else. *)
Lemma trim_split (s : JsString.t) :
  exists p q, s = p ++ JsString.trim s ++ q /\ JsString.blank p /\ JsString.blank q.
Proof.
  unfold JsString.trim.
  destruct (trimStart_split s) as (p & Hs & Hp).
  destruct (trimEnd_split (JsString.trimStart s)) as (q & Ht & Hq).
  exists p, q. split; [|auto]. rewrite <- Ht. exact Hs.
Qed.

Lemma trim_head (s : JsString.t) (c : JsString.code_unit) (r : JsString.t) :
  JsString.trim s = c :: r -> JsString.isTrimmed c = false.
Proof.
  unfold JsString.trim. intros H.
  destruct (trimEnd_split (JsString.trimStart s)) as (q & Ht & _).
  rewrite H in Ht. cbn in Ht. eapply trimStart_head, Ht.
Qed.

Lemma trim_last (s : JsString.t) (c : JsString.code_unit) (r : JsString.t) :
  reverse (JsString.trim s) = c :: r -> JsString.isTrimmed c = false.
Proof.
  unfold JsString.trim, JsString.trimEnd. rewrite reverse_involutive.
  apply trimStart_head.
Qed.

Lemma trim_idempotent (s : JsString.t) :
  JsString.trim (JsString.trim s) = JsString.trim s.
Proof.
  pose proof (trim_head s) as Hhead. pose proof (trim_last s) as Hlast.
  set (t := JsString.trim s) in *.
  unfold JsString.trim at 1, JsString.trimEnd.
  rewrite (trimStart_id t) by exact Hhead.
  rewrite (trimStart_id (reverse t)) by exact Hlast.
  apply reverse_involutive.
Qed.

Lemma trim_or_undefined_idempotent (s : option JsString.t) :
  ManualEntry.trim_or_undefined (ManualEntry.trim_or_undefined s)
  = ManualEntry.trim_or_undefined s.
Proof.
  destruct s as [x|]; cbn; [|reflexivity].
  destruct (JsString.truthy (JsString.trim x)) eqn:Ht; cbn; [|reflexivity].
  rewrite trim_idempotent, Ht. reflexivity.
Qed.

Lemma handleSubmit_request (st : ManualEntry.state) (request : ManualEntry.ManualBatchRequest) :
  (ManualEntry.handleSubmit st).2 = Some request ->
  (ManualEntry.validateForm st).2 = true
  /\ request
     = {| ManualEntry.cases :=
            (fun c => {| party_name := JsString.trim (party_name c);
                         citation := ManualEntry.trim_or_undefined (citation c);
                         notes := ManualEntry.trim_or_undefined (notes c) |})
              <$> ManualEntry.st_cases st;
          ManualEntry.auto_download_exact_matches := ManualEntry.autoDownload st |}.
Proof.
  intros Hreq.
  destruct ((ManualEntry.validateForm st).2) eqn:Hok.
  - split; [reflexivity|].
    pose proof (proj1 (validateForm_true st) Hok) as [_ Hall].
    unfold ManualEntry.handleSubmit in Hreq.
    destruct (ManualEntry.validateForm st) as [st' ok]. cbn in Hok. subst ok.
    cbn [negb snd] in Hreq. rewrite (filter_party_name_id _ Hall) in Hreq.
    injection Hreq as <-. reflexivity.
  - unfold ManualEntry.handleSubmit in Hreq.
    destruct (ManualEntry.validateForm st) as [st' ok]. cbn in Hok. subst ok.
    discriminate Hreq.
Qed.

Lemma trim_trimmed_of (s : JsString.t) : trimmed_of s (JsString.trim s).
Proof.
  destruct (trim_split s) as (p & q & Hs & Hp & Hq).
  exists p, q. split; [exact Hs|]. split; [exact Hp|]. split; [exact Hq|]. split.
  - apply trim_head.
  - intros r c Hr. apply (trim_last s c (reverse r)).
    rewrite Hr, reverse_snoc. reflexivity.
Qed.

Lemma handleSubmit_valid (st : ManualEntry.state) :
  (ManualEntry.validateForm st).2 = true ->
  (ManualEntry.handleSubmit st).2
  = Some {| ManualEntry.cases :=
              (fun c => {| party_name := JsString.trim (party_name c);
                           citation := ManualEntry.trim_or_undefined (citation c);
                           notes := ManualEntry.trim_or_undefined (notes c) |})
                <$> ManualEntry.st_cases st;
            ManualEntry.auto_download_exact_matches := ManualEntry.autoDownload st |}.
Proof.
  intros Hok. pose proof (proj1 (validateForm_true st) Hok) as [_ Hall].
  unfold ManualEntry.handleSubmit.
  destruct (ManualEntry.validateForm st) as [st' ok]. cbn in Hok. subst ok.
  cbn [negb snd]. rewrite (filter_party_name_id _ Hall). reflexivity.
Qed.

(** X7.  Every case of a submitted batch is the entered case at the same
    position with blank text removed from the two ends of each field and
    nothing else changed.  The party name sent is the entered one trimmed,
    it is not empty and neither starts nor ends with white space.  A
    citation or notes entry that is not blank is sent, as the entered text
    trimmed; one that is absent or blank is sent as absent; so what is
    sent is never empty and never dropped. *)
Theorem submitted_text_is_trimmed
    (st : ManualEntry.state) (request : ManualEntry.ManualBatchRequest)
    (i : nat) (sent : ManualCaseEntry) :
  (ManualEntry.handleSubmit st).2 = Some request ->
  ManualEntry.cases request !! i = Some sent ->
  exists c,
    ManualEntry.st_cases st !! i = Some c
    /\ party_name sent = JsString.trim (party_name c)
    /\ trimmed_of (party_name c) (party_name sent)
    /\ party_name sent <> []
    /\ (forall y, citation sent = Some y ->
          exists x, citation c = Some x /\ trimmed_of x y /\ y <> [])
    /\ (forall x, citation c = Some x -> ~ JsString.blank x ->
          citation sent = Some (JsString.trim x)
          /\ trimmed_of x (JsString.trim x))
    /\ (citation sent = None
        <-> citation c = None \/ exists x, citation c = Some x /\ JsString.blank x)
    /\ (forall y, notes sent = Some y ->
          exists x, notes c = Some x /\ trimmed_of x y /\ y <> [])
    /\ (forall x, notes c = Some x -> ~ JsString.blank x ->
          notes sent = Some (JsString.trim x)
          /\ trimmed_of x (JsString.trim x))
    /\ (notes sent = None
        <-> notes c = None \/ exists x, notes c = Some x /\ JsString.blank x).
Proof.
  intros Hreq Hsent.
  destruct (handleSubmit_request st request Hreq) as [Hok ->].
  pose proof (proj1 (validateForm_true st) Hok) as [_ Hall].
  cbn [ManualEntry.cases] in Hsent. rewrite list_lookup_fmap in Hsent.
  destruct (ManualEntry.st_cases st !! i) as [c|] eqn:Hc; [|discriminate].
  cbn in Hsent. injection Hsent as <-. exists c. split; [reflexivity|].
  cbn [party_name citation notes].
  assert (Hsome : forall s y,
            ManualEntry.trim_or_undefined s = Some y ->
            exists x, s = Some x /\ trimmed_of x y /\ y <> []).
  { intros s y Hy. apply trim_or_undefined_Some in Hy.
    destruct Hy as (x & Hx & -> & Hne). exists x.
    split; [exact Hx|]. split; [apply trim_trimmed_of|exact Hne]. }
  assert (Hkeep : forall s x,
            s = Some x -> ~ JsString.blank x ->
            ManualEntry.trim_or_undefined s = Some (JsString.trim x)
            /\ trimmed_of x (JsString.trim x)).
  { intros s x -> Hx. split; [|apply trim_trimmed_of].
    apply trim_or_undefined_Some. exists x. split; [reflexivity|].
    split; [reflexivity|]. rewrite trim_nil. exact Hx. }
  split; [reflexivity|]. split; [apply trim_trimmed_of|]. split.
  { rewrite Forall_lookup in Hall. rewrite trim_nil. exact (Hall i c Hc). }
  split; [apply Hsome|]. split; [apply Hkeep|].
  split; [apply trim_or_undefined_None|].
  split; [apply Hsome|]. split; [apply Hkeep|].
  apply trim_or_undefined_None.
Qed.

Lemma submitted_text_is_trimmed_witness :
  exists c,
    ManualEntry.st_cases MoreSamples.full_page !! 0%nat = Some c
    /\ trimmed_of (party_name c) (JsString.of_string "Smith v Jones")
    /\ (forall x, citation c = Some x -> ~ JsString.blank x ->
          Some (JsString.of_string "[2020] HKCFI 123") = Some (JsString.trim x)
          /\ trimmed_of x (JsString.trim x))
    /\ (@None JsString.t = None
        <-> notes c = None \/ exists x, notes c = Some x /\ JsString.blank x).
Proof.
  destruct (submitted_text_is_trimmed MoreSamples.full_page
              {| ManualEntry.cases :=
                   [{| party_name := JsString.of_string "Smith v Jones";
                       citation := Some (JsString.of_string "[2020] HKCFI 123");
                       notes := None |}];
                 ManualEntry.auto_download_exact_matches := true |}
              0%nat
              {| party_name := JsString.of_string "Smith v Jones";
                 citation := Some (JsString.of_string "[2020] HKCFI 123");
                 notes := None |})
    as (c & Hc & _ & Htrim & _ & _ & Hcit & _ & _ & _ & Hnotes);
    [vm_compute; reflexivity|reflexivity|].
  exists c. split; [exact Hc|]. split; [exact Htrim|].
  split; [exact Hcit|exact Hnotes].
Defined.

(** X8.  Submitting is idempotent on its own output: a form that holds
    the cases of a submitted batch validates, and submits exactly that
    batch again. *)
Theorem resubmission_is_idempotent
    (st st' : ManualEntry.state) (request : ManualEntry.ManualBatchRequest) :
  (ManualEntry.handleSubmit st).2 = Some request ->
  ManualEntry.st_cases st' = ManualEntry.cases request ->
  ManualEntry.autoDownload st' = ManualEntry.autoDownload st ->
  (ManualEntry.handleSubmit st').2 = Some request.
Proof.
  intros Hreq Hcases Hauto.
  destruct (handleSubmit_request st request Hreq) as [Hok ->].
  pose proof (proj1 (validateForm_true st) Hok) as [Hne Hall].
  cbn [ManualEntry.cases] in Hcases.
  assert (Hok' : (ManualEntry.validateForm st').2 = true).
  { apply validateForm_true. rewrite Hcases. split.
    - destruct (ManualEntry.st_cases st); [congruence|discriminate].
    - apply Forall_fmap. eapply Forall_impl; [exact Hall|].
      intros c Hc. cbn. rewrite <- trim_nil, trim_idempotent, trim_nil. exact Hc. }
  rewrite (handleSubmit_valid st' Hok'), Hcases, Hauto. do 2 f_equal.
  rewrite <- list_fmap_compose. apply list_fmap_ext. intros _ c _.
  unfold compose. cbn [party_name citation notes].
  rewrite trim_idempotent, !trim_or_undefined_idempotent. reflexivity.
Qed.

Lemma resubmission_is_idempotent_witness :
  (ManualEntry.handleSubmit
     {| ManualEntry.st_cases :=
          [{| party_name := JsString.of_string "Smith v Jones";
              citation := None; notes := None |}];
        ManualEntry.autoDownload := true;
        ManualEntry.validationErrors := [];
        ManualEntry.form_errors := ∅ |}).2
  = Some {| ManualEntry.cases :=
              [{| party_name := JsString.of_string "Smith v Jones";
                  citation := None; notes := None |}];
            ManualEntry.auto_download_exact_matches := true |}.
Proof.
  apply (resubmission_is_idempotent Samples.manual_page); vm_compute; reflexivity.
Defined.

(** ** Validation messages and edits *)

Lemma handleCasesChange_validationErrors (st : ManualEntry.state)
    (newCases : list ManualCaseEntry) :
  ManualEntry.validationErrors (ManualEntry.handleCasesChange st newCases) = [].
Proof.
  unfold ManualEntry.handleCasesChange. cbn.
  destruct (ManualEntry.validationErrors st); reflexivity.
Qed.

Lemma apply_outcome_validationErrors (st : ManualEntry.state)
    (o : CaseEntryForm.outcome) :
  is_Some (CaseEntryForm.onChange o) ->
  ManualEntry.validationErrors (ManualEntry.apply_outcome st o) = [].
Proof.
  intros [newCases Hon]. unfold ManualEntry.apply_outcome. rewrite Hon.
  exact (handleCasesChange_validationErrors st newCases).
Qed.

(** X9.  The page's validation messages never outlive a change of the
    case list: after any event that changes the list, there are none. *)
Theorem list_change_clears_validation_errors
    (st : ManualEntry.state) (e : ManualEntry.event) :
  ManualEntry.st_cases (ManualEntry.step st e) <> ManualEntry.st_cases st ->
  ManualEntry.validationErrors (ManualEntry.step st e) = [].
Proof.
  intros Hchanged. destruct e as [|index|index f value|checked|];
    cbn [ManualEntry.step] in *.
  - destruct (CaseEntryForm.onChange
                (CaseEntryForm.addCase ManualEntry.maxCases
                   (ManualEntry.st_cases st) (ManualEntry.form_errors st)))
      as [newCases|] eqn:Hon.
    + apply apply_outcome_validationErrors. rewrite Hon. eauto.
    + rewrite apply_outcome_cases, Hon in Hchanged. destruct Hchanged. reflexivity.
  - destruct (_ && _); [|destruct Hchanged; reflexivity].
    apply apply_outcome_validationErrors. cbn. eauto.
  - destruct (_ <? _)%nat; [|destruct Hchanged; reflexivity].
    apply apply_outcome_validationErrors. cbn. eauto.
  - destruct Hchanged. reflexivity.
  - destruct (_ =? _)%nat; [destruct Hchanged; reflexivity|].
    rewrite handleSubmit_cases in Hchanged. destruct Hchanged. reflexivity.
Qed.

Lemma list_change_clears_validation_errors_witness :
  ManualEntry.validationErrors
    (ManualEntry.step MoreSamples.failed_page ManualEntry.AddCase) = [].
Proof.
  apply (list_change_clears_validation_errors MoreSamples.failed_page
           ManualEntry.AddCase).
  vm_compute. discriminate.
Defined.

(** ** The hook over a whole connection *)

Lemma handle_lastMessage (JSON_parse : string -> option Js.value)
    (opts : UseWebSocket.options) (st : UseWebSocket.state)
    (e : HookRun.socket_event) :
  UseWebSocket.lastMessage (HookRun.handle JSON_parse opts st e).1
  = default (UseWebSocket.lastMessage st) (HookRun.parsed JSON_parse e).
Proof.
  destruct e as [|data| |]; cbn; try reflexivity.
  unfold UseWebSocket.onmessage. destruct (JSON_parse data) as [message|]; cbn;
    [|reflexivity].
  destruct (UseWebSocket.onMessage opts); reflexivity.
Qed.

Lemma handle_isConnected (JSON_parse : string -> option Js.value)
    (opts : UseWebSocket.options) (st : UseWebSocket.state)
    (e : HookRun.socket_event) :
  UseWebSocket.isConnected (HookRun.handle JSON_parse opts st e).1
  = default (UseWebSocket.isConnected st) (HookRun.connection_change e).
Proof.
  destruct e as [|data| |]; cbn; try reflexivity.
  unfold UseWebSocket.onmessage. destruct (JSON_parse data) as [message|]; cbn;
    [|reflexivity].
  destruct (UseWebSocket.onMessage opts); reflexivity.
Qed.

Lemma last_omap_snoc {A B : Type} (f : A -> option B) (l : list A) (x : A) :
  last (omap f (l ++ [x]))
  = match f x with Some y => Some y | None => last (omap f l) end.
Proof.
  rewrite omap_app. cbn. destruct (f x) as [y|]; cbn.
  - apply last_snoc.
  - rewrite app_nil_r. reflexivity.
Qed.

(** X10.  After any sequence of socket events, [lastMessage] is the
    message of the most recent frame that parsed ([null] when none did),
    and [isConnected] tells whether the most recent of the open, close and
    error events was an open; frames never change [isConnected], and
    connection events never change [lastMessage]. *)
Theorem hook_state_after_events
    (JSON_parse : string -> option Js.value) (opts : UseWebSocket.options)
    (es : list HookRun.socket_event) :
  UseWebSocket.lastMessage (HookRun.run JSON_parse opts es)
  = default Js.Null (last (omap (HookRun.parsed JSON_parse) es))
  /\ UseWebSocket.isConnected (HookRun.run JSON_parse opts es)
     = default false (last (omap HookRun.connection_change es)).
Proof.
  unfold HookRun.run.
  induction es as [|e es [IHm IHc]] using rev_ind; [split; reflexivity|].
  rewrite foldl_snoc, !last_omap_snoc, handle_lastMessage, handle_isConnected.
  rewrite IHm, IHc. split.
  - destruct (HookRun.parsed JSON_parse e); reflexivity.
  - destruct (HookRun.connection_change e); reflexivity.
Qed.

(** ** From a frame to a refetch *)

Lemma strict_eq_string_true (v : Js.value) (lit : string) :
  Js.strict_eq_string v lit = true <-> v = Js.Str lit.
Proof.
  destruct v; cbn; try (split; [discriminate|intros H; discriminate H]).
  destruct (String.eqb_spec s lit); split; congruence.
Qed.

Lemma on_lastMessage_all_or_none (m : Js.value) :
  Dashboard.on_lastMessage m = Dashboard.queries
  \/ Dashboard.on_lastMessage m = [].
Proof.
  unfold Dashboard.on_lastMessage.
  destruct (Js.ToBoolean m); [|auto]. destruct (_ || _); auto.
Qed.

Lemma on_lastMessage_refetches (m : Js.value) :
  Dashboard.on_lastMessage m = Dashboard.queries
  <-> exists fields,
        m = Js.Obj fields
        /\ (Js.get fields "type" = Js.Str "case_completed"
            \/ Js.get fields "type" = Js.Str "case_error"
            \/ Js.get fields "type" = Js.Str "civil_procedure_detected").
Proof.
  unfold Dashboard.on_lastMessage. split.
  - destruct (Js.ToBoolean m) eqn:Ht; [|discriminate].
    destruct (_ || _) eqn:Htype; [|discriminate]. intros _.
    rewrite !Bool.orb_true_iff, !strict_eq_string_true in Htype.
    destruct m; cbn in Htype; try (destruct Htype as [[H|H]|H]; discriminate H).
    exists fields. split; [reflexivity|tauto].
  - intros (fields & -> & Htype). cbn.
    rewrite <- !strict_eq_string_true in Htype.
    destruct Htype as [-> | [-> | ->]]; rewrite ?Bool.orb_true_r; reflexivity.
Qed.

(** X11.  A frame makes the dashboard refetch exactly when it parses to an
    object whose [type] is [case_completed], [case_error] or
    [civil_procedure_detected]; the refetch is of all three queries or of
    none, so a [batch_complete] or [ambiguous_requires_selection] event is
    picked up by the poll only. *)
Theorem refetch_after_frame
    (JSON_parse : string -> option Js.value) (opts : UseWebSocket.options)
    (st : UseWebSocket.state) (data : string) (message : Js.value) :
  JSON_parse data = Some message ->
  (Dashboard.on_lastMessage
     (UseWebSocket.lastMessage (UseWebSocket.onmessage JSON_parse opts st data).1)
   = Dashboard.queries
   \/ Dashboard.on_lastMessage
        (UseWebSocket.lastMessage (UseWebSocket.onmessage JSON_parse opts st data).1)
      = [])
  /\ (Dashboard.on_lastMessage
        (UseWebSocket.lastMessage (UseWebSocket.onmessage JSON_parse opts st data).1)
      = Dashboard.queries
      <-> exists fields,
            message = Js.Obj fields
            /\ (Js.get fields "type" = Js.Str "case_completed"
                \/ Js.get fields "type" = Js.Str "case_error"
                \/ Js.get fields "type" = Js.Str "civil_procedure_detected")).
Proof.
  intros Hparse.
  assert (Hlast : UseWebSocket.lastMessage
                    (UseWebSocket.onmessage JSON_parse opts st data).1 = message).
  { unfold UseWebSocket.onmessage. rewrite Hparse.
    destruct (UseWebSocket.onMessage opts); reflexivity. }
  rewrite Hlast. split; [apply on_lastMessage_all_or_none|].
  apply on_lastMessage_refetches.
Qed.

Lemma refetch_after_frame_witness :
  Dashboard.on_lastMessage
    (UseWebSocket.lastMessage
       (UseWebSocket.onmessage MoreSamples.parse_sample Samples.hook_options
          UseWebSocket.initial MoreSamples.completed_frame).1)
  = Dashboard.queries.
Proof.
  apply (refetch_after_frame MoreSamples.parse_sample Samples.hook_options
           UseWebSocket.initial MoreSamples.completed_frame
           (Js.Obj [("type", Js.Str "case_completed")])).
  - reflexivity.
  - exists [("type", Js.Str "case_completed")]. split; [reflexivity|].
    left. reflexivity.
Defined.

(** ** More on the disambiguation page *)

Lemma step_pending (st : Disambiguation.state) (e : Disambiguation.event) :
  Disambiguation.isPending st = true ->
  e <> Disambiguation.MutationSettled ->
  Disambiguation.step st e = (st, []).
Proof.
  intros Hp He. destruct e as [index| |]; cbn.
  - destruct (Disambiguation.results st !! index); [rewrite Hp|]; reflexivity.
  - unfold Disambiguation.confirm_disabled. rewrite Hp, Bool.orb_true_r. reflexivity.
  - contradiction.
Qed.

Lemma run_pending (es : list Disambiguation.event) (st : Disambiguation.state) :
  Disambiguation.isPending st = true ->
  Forall (fun e => e <> Disambiguation.MutationSettled) es ->
  Disambiguation.run st es = (st, []).
Proof.
  intros Hp Hes. induction Hes as [|e es He _ IH]; [reflexivity|].
  rewrite run_cons, (step_pending st e Hp He). cbn [fst snd]. rewrite IH. reflexivity.
Qed.

Lemma step_request_pending (st : Disambiguation.state) (e : Disambiguation.event) :
  (Disambiguation.step st e).2 = []
  \/ (length (Disambiguation.step st e).2 = 1%nat
      /\ Disambiguation.isPending (Disambiguation.step st e).1 = true).
Proof.
  destruct e as [index| |]; cbn.
  - left. destruct (Disambiguation.results st !! index);
      [destruct (Disambiguation.isPending st)|]; reflexivity.
  - destruct (Disambiguation.confirm_disabled st); [left; reflexivity|].
    unfold Disambiguation.handleSelect.
    destruct (Disambiguation.selectedResult st) as [i|]; [|left; reflexivity].
    destruct (Disambiguation.selected_truthy (Some i)); [right|left]; cbn; auto.
  - left. reflexivity.
Qed.

(** X12.  The page never has two select requests in flight: between two
    settlements of the mutation, whatever the user clicks, it sends at most
    one request. *)
Theorem at_most_one_request_in_flight
    (st : Disambiguation.state) (events : list Disambiguation.event) :
  Forall (fun e => e <> Disambiguation.MutationSettled) events ->
  length (Disambiguation.run st events).2 <= 1.
Proof.
  intros Hes. revert st. induction Hes as [|e es He Hes IH]; intros st.
  - cbn. lia.
  - rewrite run_cons. cbn [snd]. rewrite length_app.
    destruct (step_request_pending st e) as [Hnone|[Hone Hp]].
    + rewrite Hnone. cbn. apply IH.
    + rewrite (run_pending es _ Hp Hes), Hone. cbn. lia.
Qed.

Lemma at_most_one_request_in_flight_witness :
  length
    (Disambiguation.run Samples.page
       [Disambiguation.ClickCard 0; Disambiguation.ClickConfirm;
        Disambiguation.ClickConfirm; Disambiguation.ClickCard 1;
        Disambiguation.ClickConfirm]).2 <= 1.
Proof.
  apply (at_most_one_request_in_flight Samples.page).
  repeat constructor; discriminate.
Defined.

Lemma step_requests_nonempty (st : Disambiguation.state)
    (e : Disambiguation.event) (req : Api.request) :
  req ∈ (Disambiguation.step st e).2 ->
  exists i, i <> "" /\ Js.get (Api.body req) "result_id" = Js.Str i.
Proof.
  destruct e as [index| |]; cbn.
  - destruct (Disambiguation.results st !! index);
      [destruct (Disambiguation.isPending st)|]; intros H; inversion H.
  - destruct (Disambiguation.confirm_disabled st); [intros H; inversion H|].
    unfold Disambiguation.handleSelect.
    destruct (Disambiguation.selectedResult st) as [i|]; [|intros H; inversion H].
    cbn. destruct (String.eqb_spec i ""); cbn; [intros H; inversion H|].
    intros H. apply list_elem_of_singleton in H. subst req. exists i. auto.
  - intros H. inversion H.
Qed.

(** X13.  The page never asks the server to select the empty id: every
    request it sends, from any state and along any events, names a
    non-empty [result_id]. *)
Theorem never_selects_empty_id
    (st : Disambiguation.state) (events : list Disambiguation.event)
    (req : Api.request) :
  req ∈ (Disambiguation.run st events).2 ->
  exists i, i <> "" /\ Js.get (Api.body req) "result_id" = Js.Str i.
Proof.
  revert st. induction events as [|e es IH]; intros st; [intros H; inversion H|].
  rewrite run_cons. cbn [snd]. intros H. apply elem_of_app in H.
  destruct H as [H|H]; [eapply step_requests_nonempty, H|eapply IH, H].
Qed.

Lemma never_selects_empty_id_witness :
  exists i, i <> "" /\
    Js.get (Api.body (Api.selectCaseResult "case-1" "r-1")) "result_id" = Js.Str i.
Proof.
  apply (never_selects_empty_id Samples.page
           [Disambiguation.ClickCard 0; Disambiguation.ClickConfirm]).
  vm_compute. constructor.
Defined.

Lemma cards_lookup (citation_raw : option string) (st : Disambiguation.state)
    (j : nat) (props : Disambiguation.ResultCardProps) :
  Disambiguation.cards citation_raw st !! j = Some props ->
  exists r, Disambiguation.results st !! j = Some r
    /\ Disambiguation.result props = r
    /\ Disambiguation.isSelected props
       = bool_decide (Disambiguation.selectedResult st = Some (id r))
    /\ Disambiguation.disabled props = Disambiguation.isPending st.
Proof.
  unfold Disambiguation.cards.
  change (@map SearchResultItem Disambiguation.ResultCardProps)
    with (@fmap list _ SearchResultItem Disambiguation.ResultCardProps).
  rewrite list_lookup_fmap.
  destruct (Disambiguation.results st !! j) as [r|]; [|discriminate].
  cbn. intros [= <-]. exists r. auto.
Qed.

(** X14.  When the loaded results have distinct ids, clicking a card
    (while no mutation is pending) highlights that card and no other. *)
Theorem click_highlights_one_card
    (citation_raw : option string) (st : Disambiguation.state)
    (i j : nat) (r : SearchResultItem) (props : Disambiguation.ResultCardProps) :
  NoDup (id <$> Disambiguation.results st) ->
  Disambiguation.isPending st = false ->
  Disambiguation.results st !! i = Some r ->
  Disambiguation.cards citation_raw
    (Disambiguation.step st (Disambiguation.ClickCard i)).1 !! j = Some props ->
  (Disambiguation.isSelected props = true <-> j = i).
Proof.
  intros Hnodup Hidle Hr Hcard.
  apply cards_lookup in Hcard. destruct Hcard as (r' & Hr' & _ & Hsel & _).
  cbn in Hr', Hsel. rewrite Hr, Hidle in Hr', Hsel. cbn in Hr', Hsel.
  rewrite Hsel, bool_decide_eq_true. split.
  - intros [= Hid]. apply (NoDup_lookup _ j i (id r) Hnodup).
    + rewrite list_lookup_fmap, Hr'. cbn. congruence.
    + rewrite list_lookup_fmap, Hr. reflexivity.
  - intros ->. congruence.
Qed.

Lemma click_highlights_one_card_witness :
  Disambiguation.isSelected
    {| Disambiguation.result := Samples.civil_case;
       Disambiguation.userCitation := None;
       Disambiguation.isSelected := true;
       Disambiguation.disabled := false |} = true
  <-> 1%nat = 1%nat.
Proof.
  apply (click_highlights_one_card None Samples.page 1 1 Samples.civil_case).
  - compute_done.
  - reflexivity.
  - reflexivity.
  - vm_compute. reflexivity.
Defined.

(** ** The rows of the case table *)

Lemma statusConfig_lookup (s : CaseStatus) :
  is_Some (Rows.statusConfig !! Rows.CaseStatus_name s).
Proof. destruct s; vm_compute; eauto. Qed.

(** X15.  [statusConfig] has exactly one entry for each of the ten case
    statuses and no other key, so every row of the case table renders,
    whatever the case's status; the row shows the badge of its status, and
    it offers the select link, to the case's own disambiguation page,
    exactly for [ambiguous] and [awaiting_selection]. *)
Theorem statusConfig_total :
  Rows.statusConfig_entries.*1 = Rows.CaseStatus_name <$> Batch.all_statuses
  /\ NoDup (Rows.CaseStatus_name <$> Batch.all_statuses)
  /\ (forall s : CaseStatus, s ∈ Batch.all_statuses)
  /\ (forall caseItem : Rows.CaseJob,
        exists view,
          Rows.CaseRow caseItem = Some view
          /\ Rows.statusConfig !! Rows.CaseStatus_name (Rows.status caseItem)
             = Some (Rows.status_badge view)
          /\ Rows.select_link view
             = match Rows.status caseItem with
               | ambiguous | awaiting_selection =>
                   Some ("/case/" +:+ Rows.id caseItem +:+ "/disambiguate")
               | _ => None
               end).
Proof.
  split; [reflexivity|]. split; [compute_done|].
  split; [intros []; repeat constructor|].
  intros caseItem. unfold Rows.CaseRow.
  destruct (statusConfig_lookup (Rows.status caseItem)) as [badge Hbadge].
  rewrite Hbadge. cbn. eexists. split; [reflexivity|]. cbn.
  split; [reflexivity|].
  destruct (Rows.status caseItem); reflexivity.
Qed.

(** ** The upload page *)

Lemma upload_run_cons (st : BatchUpload.state) e es :
  BatchUpload.run st (e :: es)
  = ((BatchUpload.run (BatchUpload.step st e).1 es).1,
     (BatchUpload.step st e).2 ++ (BatchUpload.run (BatchUpload.step st e).1 es).2).
Proof.
  cbn. destruct (BatchUpload.step st e) as [st1 out1]. cbn.
  destruct (BatchUpload.run st1 es) as [st2 out2]. reflexivity.
Qed.

Lemma upload_step_state (st : BatchUpload.state) (e : BatchUpload.event) :
  BatchUpload.uploadedFile (BatchUpload.step st e).1
  = match BatchUpload.dropped e with
    | Some f => Some f
    | None => BatchUpload.uploadedFile st
    end
  /\ BatchUpload.autoDownload (BatchUpload.step st e).1
     = default (BatchUpload.autoDownload st) (BatchUpload.toggled e).
Proof.
  destruct e as [[|f files]|checked| |]; cbn; auto.
  destruct (BatchUpload.uploadedFile st) as [f|] eqn:Hf; [|auto].
  destruct (BatchUpload.isPending st); [auto|].
  unfold BatchUpload.handleUpload. rewrite Hf. cbn. auto.
Qed.

Lemma upload_run_state (es : list BatchUpload.event) (st : BatchUpload.state) :
  BatchUpload.uploadedFile (BatchUpload.run st es).1
  = match last (omap BatchUpload.dropped es) with
    | Some f => Some f
    | None => BatchUpload.uploadedFile st
    end
  /\ BatchUpload.autoDownload (BatchUpload.run st es).1
     = default (BatchUpload.autoDownload st) (last (omap BatchUpload.toggled es)).
Proof.
  revert st. induction es as [|e es IH]; intros st; [split; reflexivity|].
  rewrite upload_run_cons. cbn [fst omap list_omap].
  destruct (IH (BatchUpload.step st e).1) as [IHf IHa].
  destruct (upload_step_state st e) as [Hf Ha].
  rewrite IHf, IHa, Hf, Ha. split.
  - destruct (BatchUpload.dropped e) as [f|]; [|reflexivity].
    rewrite last_cons. destruct (last (omap BatchUpload.dropped es)); reflexivity.
  - destruct (BatchUpload.toggled e) as [b|]; [|reflexivity].
    rewrite last_cons. destruct (last (omap BatchUpload.toggled es)); reflexivity.
Qed.

Lemma upload_step_requests (st : BatchUpload.state) (e : BatchUpload.event)
    (req : BatchUpload.upload_request) :
  req ∈ (BatchUpload.step st e).2 ->
  e = BatchUpload.ClickUpload
  /\ BatchUpload.isPending st = false
  /\ exists f, BatchUpload.uploadedFile st = Some f
       /\ req = BatchUpload.createBatch f (BatchUpload.autoDownload st).
Proof.
  destruct e as [files|checked| |]; cbn; try (intros H; inversion H; fail).
  destruct (BatchUpload.uploadedFile st) as [f|] eqn:Hf; [|intros H; inversion H].
  destruct (BatchUpload.isPending st); [intros H; inversion H|].
  unfold BatchUpload.handleUpload. rewrite Hf. cbn. intros H.
  apply list_elem_of_singleton in H. subst req. eauto.
Qed.

Lemma upload_run_requests (es : list BatchUpload.event) :
  forall (st : BatchUpload.state) (req : BatchUpload.upload_request),
    req ∈ (BatchUpload.run st es).2 ->
    exists pre post f,
      es = pre ++ BatchUpload.ClickUpload :: post
      /\ BatchUpload.uploadedFile (BatchUpload.run st pre).1 = Some f
      /\ BatchUpload.isPending (BatchUpload.run st pre).1 = false
      /\ req = BatchUpload.createBatch f
                 (BatchUpload.autoDownload (BatchUpload.run st pre).1).
Proof.
  induction es as [|e es IH]; intros st req; [intros H; inversion H|].
  rewrite upload_run_cons. cbn [snd]. intros H. apply elem_of_app in H.
  destruct H as [H|H].
  - destruct (upload_step_requests st e req H) as (-> & Hidle & f & Hf & ->).
    exists [], es, f. cbn. auto.
  - destruct (IH _ req H) as (pre & post & f & -> & Hf & Hidle & ->).
    exists (e :: pre), post, f. rewrite upload_run_cons. cbn [fst]. auto.
Qed.

(** X16.  Every upload request is sent by a click on the upload button
    and carries the file and the auto-download choice as they stand at
    that click: the first file of the most recent non-empty drop and the
    most recent value of the checkbox ([true] if it was never touched).  No
    request is sent before a file was dropped. *)
Theorem upload_request_carries_current_choice
    (events : list BatchUpload.event) (req : BatchUpload.upload_request) :
  req ∈ (BatchUpload.run BatchUpload.initial events).2 ->
  exists pre post f,
    events = pre ++ BatchUpload.ClickUpload :: post
    /\ last (omap BatchUpload.dropped pre) = Some f
    /\ req = BatchUpload.createBatch f
               (default true (last (omap BatchUpload.toggled pre))).
Proof.
  intros Hreq.
  destruct (upload_run_requests events _ req Hreq)
    as (pre & post & f & Hes & Hf & _ & ->).
  destruct (upload_run_state pre BatchUpload.initial) as [Hfile Hauto].
  exists pre, post, f. split; [exact Hes|]. rewrite Hauto. split; [|reflexivity].
  rewrite Hfile in Hf. cbn in Hf.
  destruct (last (omap BatchUpload.dropped pre)); [exact Hf|discriminate].
Qed.

Lemma upload_request_carries_current_choice_witness :
  exists pre post f,
    [BatchUpload.Drop [MoreSamples.sheet]; BatchUpload.ToggleAutoDownload false;
     BatchUpload.ClickUpload]
    = pre ++ BatchUpload.ClickUpload :: post
    /\ last (omap BatchUpload.dropped pre) = Some f
    /\ BatchUpload.createBatch MoreSamples.sheet false
       = BatchUpload.createBatch f
           (default true (last (omap BatchUpload.toggled pre))).
Proof.
  apply (upload_request_carries_current_choice
           [BatchUpload.Drop [MoreSamples.sheet];
            BatchUpload.ToggleAutoDownload false; BatchUpload.ClickUpload]).
  vm_compute. constructor.
Defined.

Lemma upload_step_pending (st : BatchUpload.state) (e : BatchUpload.event) :
  BatchUpload.isPending st = true ->
  e <> BatchUpload.MutationSettled ->
  (BatchUpload.step st e).2 = []
  /\ BatchUpload.isPending (BatchUpload.step st e).1 = true.
Proof.
  intros Hp He. destruct e as [[|f files]|checked| |]; cbn; auto;
    try contradiction.
  destruct (BatchUpload.uploadedFile st); rewrite ?Hp; auto.
Qed.

Lemma upload_run_pending (es : list BatchUpload.event) :
  Forall (fun e => e <> BatchUpload.MutationSettled) es ->
  forall st, BatchUpload.isPending st = true -> (BatchUpload.run st es).2 = [].
Proof.
  induction 1 as [|e es He _ IH]; intros st Hp; [reflexivity|].
  rewrite upload_run_cons. cbn [snd].
  destruct (upload_step_pending st e Hp He) as [-> Hp']. apply IH, Hp'.
Qed.

(** X17.  The upload page never has two uploads in flight: between two
    settlements of the mutation it sends at most one request, also when
    another file is dropped meanwhile. *)
Theorem at_most_one_upload_in_flight
    (st : BatchUpload.state) (events : list BatchUpload.event) :
  Forall (fun e => e <> BatchUpload.MutationSettled) events ->
  length (BatchUpload.run st events).2 <= 1.
Proof.
  intros Hes. revert st. induction Hes as [|e es He Hes IH]; intros st.
  - cbn. lia.
  - rewrite upload_run_cons. cbn [snd]. rewrite length_app.
    destruct (BatchUpload.step st e).2 as [|req out] eqn:Hout; [apply IH|].
    assert (Hin : req ∈ (BatchUpload.step st e).2) by (rewrite Hout; constructor).
    destruct (upload_step_requests st e req Hin) as (-> & Hidle & f & Hf & _).
    cbn in Hout |- *. rewrite Hf, Hidle in Hout |- *.
    unfold BatchUpload.handleUpload in Hout |- *. rewrite Hf in Hout |- *.
    cbn in Hout |- *. injection Hout as _ <-.
    rewrite (upload_run_pending es Hes) by reflexivity. cbn. lia.
Qed.

Lemma at_most_one_upload_in_flight_witness :
  length
    (BatchUpload.run BatchUpload.initial
       [BatchUpload.Drop [MoreSamples.sheet]; BatchUpload.ClickUpload;
        BatchUpload.Drop [MoreSamples.sheet]; BatchUpload.ClickUpload]).2 <= 1.
Proof.
  apply (at_most_one_upload_in_flight BatchUpload.initial).
  repeat constructor; discriminate.
Defined.

(** ** What the hook tells its caller *)

Lemma handle_onMessage_calls (JSON_parse : string -> option Js.value)
    (opts : UseWebSocket.options) (st : UseWebSocket.state)
    (e : HookRun.socket_event) :
  UseWebSocket.onMessage_calls (HookRun.handle JSON_parse opts st e).2
  = match UseWebSocket.onMessage opts, HookRun.parsed JSON_parse e with
    | Some _, Some message => [message]
    | _, _ => []
    end.
Proof.
  destruct e as [|data| |]; [cbn [HookRun.handle HookRun.parsed]|cbn..].
  - assert (Hrest : forall out,
              out = [] \/ out = UseWebSocket.subscribe opts ->
              UseWebSocket.onMessage_calls out = []).
    { intros out [-> | ->]; [reflexivity|]. unfold UseWebSocket.subscribe.
      destruct (UseWebSocket.batchId opts) as [b|]; [|reflexivity].
      destruct (UseWebSocket.batchId_truthy (Some b)); reflexivity. }
    assert (Hcalls : UseWebSocket.onMessage_calls (UseWebSocket.onopen opts st).2 = []).
    { unfold UseWebSocket.onopen. cbn [snd].
      destruct (UseWebSocket.onConnect opts) as [cb|]; [destruct (cb tt)|].
      - exact (Hrest [] (or_introl eq_refl)).
      - exact (Hrest _ (or_intror eq_refl)).
      - exact (Hrest _ (or_intror eq_refl)). }
    rewrite Hcalls. destruct (UseWebSocket.onMessage opts); reflexivity.
  - unfold UseWebSocket.onmessage. destruct (JSON_parse data) as [message|].
    + destruct (UseWebSocket.onMessage opts) as [cb|]; cbn; [|reflexivity].
      destruct (cb message); reflexivity.
    + destruct (UseWebSocket.onMessage opts); reflexivity.
  - destruct (UseWebSocket.onDisconnect opts), (UseWebSocket.onMessage opts);
      reflexivity.
  - destruct (UseWebSocket.onMessage opts); reflexivity.
Qed.

(** X18.  Over any sequence of socket events, [onMessage] is called once
    for each frame that parses, with its message, in arrival order, also
    after a call that threw, and never for anything else; without an
    [onMessage] nothing is called. *)
Theorem hook_reports_every_parsed_frame
    (JSON_parse : string -> option Js.value) (opts : UseWebSocket.options)
    (st : UseWebSocket.state) (es : list HookRun.socket_event) :
  UseWebSocket.onMessage_calls (HookRun.trace JSON_parse opts st es)
  = match UseWebSocket.onMessage opts with
    | Some _ => omap (HookRun.parsed JSON_parse) es
    | None => []
    end.
Proof.
  revert st. induction es as [|e es IH]; intros st.
  - cbn. destruct (UseWebSocket.onMessage opts); auto.
  - cbn [HookRun.trace]. unfold UseWebSocket.onMessage_calls in *.
    rewrite omap_app, (IH (HookRun.handle JSON_parse opts st e).1).
    pose proof (handle_onMessage_calls JSON_parse opts st e) as Hm.
    unfold UseWebSocket.onMessage_calls in Hm.
    rewrite Hm. cbn [omap list_omap].
    destruct (UseWebSocket.onMessage opts); [|reflexivity].
    destruct (HookRun.parsed JSON_parse e); reflexivity.
Qed.

(** ** Submitting and its messages *)

(** X19.  Submitting the manual form sends a batch exactly when it leaves
    no validation message on the page; a refused submission sends nothing
    and shows at least one message, and either way the entered cases stay
    as they are. *)
Theorem submit_refused_iff_errors_shown (st : ManualEntry.state) :
  (is_Some (ManualEntry.handleSubmit st).2
   <-> ManualEntry.validationErrors (ManualEntry.handleSubmit st).1 = [])
  /\ ManualEntry.st_cases (ManualEntry.handleSubmit st).1 = ManualEntry.st_cases st
  /\ ManualEntry.validationErrors (ManualEntry.handleSubmit st).1
     = ManualEntry.validateForm_errors (ManualEntry.st_cases st).
Proof.
  split; [|split; [apply handleSubmit_cases|]].
  - unfold ManualEntry.handleSubmit, ManualEntry.validateForm.
    destruct (ManualEntry.validateForm_errors (ManualEntry.st_cases st)) eqn:He;
      cbn; rewrite ?He; split; eauto; try discriminate.
    intros [x Hx]. discriminate Hx.
  - unfold ManualEntry.handleSubmit, ManualEntry.validateForm.
    destruct (negb _); reflexivity.
Qed.

Lemma submit_refused_iff_errors_shown_witness :
  ManualEntry.validationErrors (ManualEntry.handleSubmit Samples.manual_page).1 = [].
Proof.
  destruct (submit_refused_iff_errors_shown Samples.manual_page) as [Hsent _].
  apply Hsent. vm_compute. eauto.
Defined.

(** ** The error marks of the form inside the page *)

Lemma shift_errors_empty (index : nat) : CaseEntryForm.shift_errors index ∅ = ∅.
Proof. apply map_eq. intros k. rewrite shift_errors_lookup, !lookup_empty.
  destruct (k <? index)%nat; reflexivity. Qed.

Lemma step_form_errors_empty (st : ManualEntry.state) (e : ManualEntry.event) :
  ManualEntry.form_errors st = ∅ -> ManualEntry.form_errors (ManualEntry.step st e) = ∅.
Proof.
  intros Hempty. destruct e as [|index|index f value|checked|]; cbn [ManualEntry.step].
  - unfold ManualEntry.apply_outcome, CaseEntryForm.addCase.
    destruct (_ >=? _)%Z; cbn; exact Hempty.
  - destruct (_ && _); [|exact Hempty].
    unfold ManualEntry.apply_outcome. cbn. rewrite Hempty. apply shift_errors_empty.
  - destruct (_ <? _)%nat; [|exact Hempty].
    unfold ManualEntry.apply_outcome. cbn. rewrite Hempty, lookup_empty. reflexivity.
  - exact Hempty.
  - destruct (_ =? _)%nat; [exact Hempty|].
    unfold ManualEntry.handleSubmit, ManualEntry.validateForm.
    destruct (negb _); exact Hempty.
Qed.

(** X20.  On the manual-entry page the form's per-case error marks never
    appear: the page validates with its own [validateForm] and never calls
    the form's [validateAll], and adding, removing and editing entries keep
    an empty error map empty, so [errors] is empty after every sequence of
    events. *)
Theorem form_error_marks_never_shown (events : list ManualEntry.event) :
  ManualEntry.form_errors (ManualEntry.run events) = ∅.
Proof.
  unfold ManualEntry.run.
  induction events as [|e es IH] using rev_ind; [reflexivity|].
  rewrite foldl_snoc. apply step_form_errors_empty, IH.
Qed.

(** ** The card behind a request *)



